(** * AutoRegister: a shallow embedding of src/04_AutoRegister/auto_register.h

    The registry singleton [AutoRegister] is modelled as an explicit state
    [reg] with its four members: the (non-recursive) [std::mutex mutex_],
    the [creators_] map, the [instances_] map and the [init_queues_] map
    from priority to the queued init closures.  Methods run in a small
    state-and-exception monad [M]; a [std::lock_guard] is [with_lock], and
    locking a mutex that is already held (the same thread, a
    [std::mutex]) blocks forever, which is the result [RDeadlock].

    Client code (creator lambdas, constructors of [T], initializers) is
    opaque: each client function is given by the outcome it has at each
    call, indexed by a global call counter [tick].  A successful creation
    at tick [t] yields the instance [t], so every instance is fresh.  Each
    client call is recorded in [trace] together with whether the registry
    mutex was held at that moment; diagnostics written to [std::cerr] are
    recorded as [EvWarn], [EvError] and [EvBatchError] events; the
    [std::cout] info lines are not diagnostics and are not modelled. *)

From Stdlib Require Import ZArith Lia Sorted.
From stdpp Require Import base gmap strings list.

Module AutoRegister.

(** ** Client code *)

(** What a creator lambda does at one call: return a (null or non-null)
    handle, throw a [std::exception], or throw anything else. *)
Inductive creator_outcome :=
| Returns (nonnull : bool)
| ThrowsStd
| ThrowsOther.

(** What a constructor or an initializer does at one call. *)
Inductive act_outcome :=
| Done
| RaisesStd
| RaisesOther.

Definition creator_fn := nat -> creator_outcome.
Definition act_fn := nat -> act_outcome.

(** The [std::function<std::shared_ptr<void>()>] stored in [creators_],
    one constructor per shape of lambda the registration methods store:
    - [CPlain]: the client's creator itself ([registerCreator],
      [registerNamedCreator]);
    - [CWithInit]: the wrapper of [registerCreatorWithInit] and
      [registerNamedCreatorWithInit] (creator, then initializer, in one
      [try]);
    - [CClass]: the [make_shared<T>()] wrapper of [registerClass] and
      [registerNamedInstance];
    - [CClassWithInit]: the wrapper of [registerClassWithInit] and
      [registerNamedInstanceWithInit]; the initializer may be a null
      [std::function].
    The [name] is the key captured by the wrapper for its error message. *)
Inductive stored_creator :=
| CPlain (f : creator_fn)
| CWithInit (name : string) (f : creator_fn) (g : act_fn)
| CClass (name : string) (ctor : act_fn)
| CClassWithInit (name : string) (ctor : act_fn) (init : option act_fn).

Inductive event :=
| EvCreator (key : string) (inst : nat) (locked : bool)
| EvInit (key : string) (inst : nat) (locked : bool)
| EvWarn (key : string)
| EvError (key : string)
| EvBatchError (index : nat).

Record reg := mkReg {
  mutex_ : bool;
  creators_ : gmap string stored_creator;
  instances_ : gmap string nat;
  init_queues_ : gmap Z (list string);
  tick : nat;
  trace : list event
}.

(** The registry as constructed by [AutoRegister() = default]. *)
Definition empty_reg : reg := mkReg false ∅ ∅ ∅ 0 [].

(** ** The monad *)

Inductive exc := StdException | OtherException.

Inductive res (A : Type) :=
| ROk (a : A)
| RThrow (e : exc)
| RDeadlock.
Arguments ROk {A} a.
Arguments RThrow {A} e.
Arguments RDeadlock {A}.

Definition M (A : Type) : Type := reg -> res A * reg.

Definition M_ret {A} (a : A) : M A := fun s => (ROk a, s).

Definition M_bind {A B} (m : M A) (k : A -> M B) : M B := fun s =>
  match m s with
  | (ROk a, s') => k a s'
  | (RThrow e, s') => (RThrow e, s')
  | (RDeadlock, s') => (RDeadlock, s')
  end.

Global Instance M_mbind : MBind M := fun A B k m => M_bind m k.

Definition get_state : M reg := fun s => (ROk s, s).
Definition modify (f : reg -> reg) : M unit := fun s => (ROk tt, f s).
Definition throw {A} (e : exc) : M A := fun s => (RThrow e, s).

Definition set_mutex (b : bool) (s : reg) : reg :=
  mkReg b (creators_ s) (instances_ s) (init_queues_ s) (tick s) (trace s).
Definition set_creators (c : gmap string stored_creator) (s : reg) : reg :=
  mkReg (mutex_ s) c (instances_ s) (init_queues_ s) (tick s) (trace s).
Definition set_instances (i : gmap string nat) (s : reg) : reg :=
  mkReg (mutex_ s) (creators_ s) i (init_queues_ s) (tick s) (trace s).
Definition set_queues (q : gmap Z (list string)) (s : reg) : reg :=
  mkReg (mutex_ s) (creators_ s) (instances_ s) q (tick s) (trace s).
Definition push_event (e : event) (s : reg) : reg :=
  mkReg (mutex_ s) (creators_ s) (instances_ s) (init_queues_ s) (tick s)
        (trace s ++ [e]).

Definition emit (e : event) : M unit := modify (push_event e).

(** [std::mutex::lock]: blocks forever when the mutex is already held. *)
Definition lock : M unit := fun s =>
  if mutex_ s then (RDeadlock, s) else (ROk tt, set_mutex true s).

(** A [std::lock_guard] scope: the mutex is released when the scope is
    left, by a [return] or by an exception. *)
Definition with_lock {A} (m : M A) : M A := fun s =>
  match lock s with
  | (ROk _, s1) =>
      match m s1 with
      | (ROk a, s2) => (ROk a, set_mutex false s2)
      | (RThrow e, s2) => (RThrow e, set_mutex false s2)
      | (RDeadlock, s2) => (RDeadlock, s2)
      end
  | (_, s1) => (RDeadlock, s1)
  end.

(** [try { m } catch (const std::exception&) { h }] *)
Definition catch_std {A} (m : M A) (h : M A) : M A := fun s =>
  match m s with
  | (RThrow StdException, s') => h s'
  | r => r
  end.

(** [try { m } catch (const std::exception&) { h } catch (...) { h }] *)
Definition catch_all {A} (m : M A) (h : M A) : M A := fun s =>
  match m s with
  | (RThrow _, s') => h s'
  | r => r
  end.

(** ** Calls into client code *)

Definition client_step (e : event) (s : reg) : reg :=
  mkReg (mutex_ s) (creators_ s) (instances_ s) (init_queues_ s) (S (tick s))
        (trace s ++ [e]).

(** Invoking a client creator lambda; a non-null result is the fresh
    instance numbered by the call. *)
Definition run_creator (k : string) (f : creator_fn) : M (option nat) := fun s =>
  let t := tick s in
  let s1 := client_step (EvCreator k t (mutex_ s)) s in
  match f t with
  | Returns true => (ROk (Some t), s1)
  | Returns false => (ROk None, s1)
  | ThrowsStd => (RThrow StdException, s1)
  | ThrowsOther => (RThrow OtherException, s1)
  end.

(** [std::make_shared<T>()]: runs the constructor of [T]; never null. *)
Definition run_ctor (k : string) (ctor : act_fn) : M (option nat) := fun s =>
  let t := tick s in
  let s1 := client_step (EvCreator k t (mutex_ s)) s in
  match ctor t with
  | Done => (ROk (Some t), s1)
  | RaisesStd => (RThrow StdException, s1)
  | RaisesOther => (RThrow OtherException, s1)
  end.

(** Invoking an initializer on the instance [i]. *)
Definition run_init (k : string) (g : act_fn) (i : nat) : M unit := fun s =>
  let s1 := client_step (EvInit k i (mutex_ s)) s in
  match g (tick s) with
  | Done => (ROk tt, s1)
  | RaisesStd => (RThrow StdException, s1)
  | RaisesOther => (RThrow OtherException, s1)
  end.

(** [it->second()]: calling the stored [std::function] for key [k]. *)
Definition call_creator (k : string) (c : stored_creator) : M (option nat) :=
  match c with
  | CPlain f => run_creator k f
  | CWithInit name f g =>
      catch_std
        (inst ← run_creator k f;
         match inst with
         | Some i => run_init k g i;; M_ret (Some i)
         | None => M_ret None
         end)
        (emit (EvError name);; M_ret None)
  | CClass name ctor =>
      catch_std (run_ctor k ctor) (emit (EvError name);; M_ret None)
  | CClassWithInit name ctor oinit =>
      catch_std
        (inst ← run_ctor k ctor;
         match inst, oinit with
         | Some i, Some g => run_init k g i;; M_ret (Some i)
         | _, _ => M_ret inst
         end)
        (emit (EvError name);; M_ret None)
  end.

(** ** Private helpers *)

Definition makeFullName (class_name instance_name : string) : string :=
  class_name +:+ "#" +:+ instance_name.

(** [std::clamp(v, lo, hi)] *)
Definition clamp (v lo hi : Z) : Z :=
  if (v <? lo)%Z then lo else if (hi <? v)%Z then hi else v.

(** [init_queues_[priority].push_back(init_func)].  Every closure pushed by
    the registration methods is [[this, key]() { lazyCreate...<T>(key...); }]
    and the four [lazyCreate...] functions share one body (the
    [init_func] argument of [lazyCreateInstanceWithInit] is unused), so a
    queued closure is represented by its key. *)
Definition addToInitQueue (k : string) (priority : Z) : M unit :=
  modify (fun s =>
    set_queues (<[priority := default [] (init_queues_ s !! priority) ++ [k]]>
                  (init_queues_ s)) s).

Definition install_creator (k : string) (c : stored_creator) : M unit :=
  modify (fun s => set_creators (<[k := c]> (creators_ s)) s).

Definition has_creator (s : reg) (k : string) : bool :=
  match creators_ s !! k with Some _ => true | None => false end.

(** ** Lazy creation ([lazyCreateInstance], [lazyCreateInstanceWithInit],
    [lazyCreateNamedInstance], [lazyCreateNamedInstanceWithInit]) *)
Definition lazyCreateInstance (class_name : string) : M (option nat) :=
  cached ← with_lock (s ← get_state; M_ret (instances_ s !! class_name));
  match cached with
  | Some v => M_ret (Some v)
  | None =>
      step ← with_lock
        (s ← get_state;
         match creators_ s !! class_name with
         | None => emit (EvError class_name);; M_ret None
         | Some c =>
             catch_std (i ← call_creator class_name c; M_ret (Some i))
                       (emit (EvError class_name);; M_ret None)
         end);
      match step with
      | None => M_ret None
      | Some (Some v) =>
          with_lock (modify (fun s =>
            set_instances (<[class_name := v]> (instances_ s)) s));;
          M_ret (Some v)
      | Some None => M_ret None
      end
  end.

Definition lazyCreateNamedInstance (full_name instance_name : string)
  : M (option nat) := lazyCreateInstance full_name.

(** ** Registration *)

Definition registerCreator (class_name : string) (creator_lambda : creator_fn)
    (priority : Z) : M unit :=
  with_lock
    (s ← get_state;
     (if has_creator s class_name then emit (EvWarn class_name) else M_ret tt);;
     let priority := clamp priority 0 10 in
     install_creator class_name (CPlain creator_lambda);;
     addToInitQueue class_name priority).

Definition registerCreatorWithInit (class_name : string)
    (creator_lambda : creator_fn) (init_lambda : act_fn) (priority : Z) : M unit :=
  with_lock
    (s ← get_state;
     (if has_creator s class_name then emit (EvWarn class_name) else M_ret tt);;
     let priority := clamp priority 0 10 in
     install_creator class_name (CWithInit class_name creator_lambda init_lambda);;
     addToInitQueue class_name priority).

Definition registerNamedCreator (class_name instance_name : string)
    (creator_lambda : creator_fn) (priority : Z) : M unit :=
  with_lock
    (s ← get_state;
     let full_name := makeFullName class_name instance_name in
     (if has_creator s full_name then emit (EvWarn full_name) else M_ret tt);;
     let priority := clamp priority 0 10 in
     install_creator full_name (CPlain creator_lambda);;
     addToInitQueue full_name priority).

Definition registerNamedCreatorWithInit (class_name instance_name : string)
    (creator_lambda : creator_fn) (init_lambda : act_fn) (priority : Z) : M unit :=
  with_lock
    (s ← get_state;
     let full_name := makeFullName class_name instance_name in
     (if has_creator s full_name then emit (EvWarn full_name) else M_ret tt);;
     let priority := clamp priority 0 10 in
     install_creator full_name (CWithInit full_name creator_lambda init_lambda);;
     addToInitQueue full_name priority).

(** [registerClass<T>]: [ctor] is the default constructor of [T]. *)
Definition registerClass (class_name : string) (ctor : act_fn) (priority : Z)
  : M unit :=
  with_lock
    (s ← get_state;
     if has_creator s class_name then M_ret tt else
     let priority := clamp priority 0 10 in
     install_creator class_name (CClass class_name ctor);;
     addToInitQueue class_name priority).

Definition registerClassWithInit (class_name : string) (ctor : act_fn)
    (init_func : option act_fn) (priority : Z) : M unit :=
  with_lock
    (s ← get_state;
     if has_creator s class_name then M_ret tt else
     let priority := clamp priority 0 10 in
     install_creator class_name (CClassWithInit class_name ctor init_func);;
     addToInitQueue class_name priority).

Definition registerNamedInstance (instance_name class_name : string)
    (ctor : act_fn) (priority : Z) : M unit :=
  with_lock
    (s ← get_state;
     let full_name := makeFullName class_name instance_name in
     if has_creator s full_name then M_ret tt else
     let priority := clamp priority 0 10 in
     install_creator full_name (CClass full_name ctor);;
     addToInitQueue full_name priority).

Definition registerNamedInstanceWithInit (instance_name class_name : string)
    (ctor : act_fn) (init_func : option act_fn) (priority : Z) : M unit :=
  with_lock
    (s ← get_state;
     let full_name := makeFullName class_name instance_name in
     if has_creator s full_name then M_ret tt else
     let priority := clamp priority 0 10 in
     install_creator full_name (CClassWithInit full_name ctor init_func);;
     addToInitQueue full_name priority).

(** ** Batch initialization *)

(** The loop [for (priority = p; n iterations; ++priority)] appending
    [init_queues_[priority]]. *)
Fixpoint collect_from (q : gmap Z (list string)) (p : Z) (n : nat) : list string :=
  match n with
  | O => []
  | S n' => default [] (q !! p) ++ collect_from q (p + 1)%Z n'
  end.

Definition collectInitsUpToPriority (max_priority : Z) : M (list string) :=
  with_lock
    (s ← get_state;
     M_ret (collect_from (init_queues_ s) 0 (Z.to_nat (max_priority + 1)))).

Definition collectInitsAtPriority (priority : Z) : M (list string) :=
  with_lock (s ← get_state; M_ret (default [] (init_queues_ s !! priority))).

Fixpoint run_inits (i : nat) (inits : list string) : M unit :=
  match inits with
  | [] => M_ret tt
  | k :: rest =>
      catch_all (_ ← lazyCreateInstance k; M_ret tt) (emit (EvBatchError i));;
      run_inits (S i) rest
  end.

Definition executeAllCollectedInits (inits : list string) : M unit :=
  run_inits 0 inits.

Definition executePriorInits (max_priority : Z) : M unit :=
  let max_priority := clamp max_priority 0 10 in
  inits ← collectInitsUpToPriority max_priority;
  executeAllCollectedInits inits;;
  with_lock (M_ret tt).

Definition executeAllInits : M unit := executePriorInits 10.

Definition executeInitsAtPriority (priority : Z) : M unit :=
  let priority := clamp priority 0 10 in
  inits ← collectInitsAtPriority priority;
  executeAllCollectedInits inits.

(** ** Lookup *)

Definition getInstance (class_name : string) : M (option nat) :=
  with_lock
    (s ← get_state;
     match instances_ s !! class_name with
     | Some v => M_ret (Some v)
     | None => lazyCreateInstance class_name
     end).

Definition getInstanceByName (instance_name class_name : string)
  : M (option nat) :=
  with_lock
    (s ← get_state;
     let full_name := makeFullName class_name instance_name in
     match instances_ s !! full_name with
     | Some v => M_ret (Some v)
     | None => lazyCreateNamedInstance full_name instance_name
     end).

Definition hasInstance (class_name : string) : M bool :=
  with_lock
    (s ← get_state;
     M_ret (match instances_ s !! class_name with Some _ => true | None => false end)).

Definition hasNamedInstance (instance_name class_name : string) : M bool :=
  with_lock
    (s ← get_state;
     let full_name := makeFullName class_name instance_name in
     M_ret (match instances_ s !! full_name with Some _ => true | None => false end)).

Definition forceInit (class_name : string) : M (option nat) :=
  lazyCreateInstance class_name.

Definition clear : M unit :=
  with_lock (modify (fun s => mkReg (mutex_ s) ∅ ∅ ∅ (tick s) (trace s))).

Definition getInstanceCount : M nat :=
  with_lock (s ← get_state; M_ret (size (instances_ s))).

Definition getRegisteredCount : M nat :=
  with_lock (s ← get_state; M_ret (size (creators_ s))).

Definition forceInitNamed (instance_name class_name : string) : M (option nat) :=
  let full_name := makeFullName class_name instance_name in
  lazyCreateNamedInstance full_name instance_name.

(** ** Free functions *)

(** [::registerCreator<T>(class_name, creator_lambda, priority)]: forwards
    to the member [registerCreatorWithInit<T>] with a no-op initializer
    and no priority argument, i.e. the default priority 5. *)
Definition registerCreator_T (class_name : string) (creator_lambda : creator_fn)
    (priority : Z) : M unit :=
  registerCreatorWithInit class_name creator_lambda (fun _ => Done) 5.

Definition registerCreatorWithInit_T (class_name : string)
    (creator_lambda : creator_fn) (init_lambda : act_fn) (priority : Z) : M unit :=
  registerCreatorWithInit class_name creator_lambda init_lambda priority.

Definition registerNamedCreator_T (class_name instance_name : string)
    (creator_lambda : creator_fn) (priority : Z) : M unit :=
  registerNamedCreatorWithInit class_name instance_name creator_lambda
    (fun _ => Done) priority.

(** The non-template [inline] free functions. *)
Definition registerCreator_free (class_name : string) (creator_lambda : creator_fn)
    (priority : Z) : M unit :=
  registerCreator class_name creator_lambda priority.

Definition registerNamedCreator_free (class_name instance_name : string)
    (creator_lambda : creator_fn) (priority : Z) : M unit :=
  registerNamedCreator class_name instance_name creator_lambda priority.

Definition registerNamedCreatorWithInit_T (class_name instance_name : string)
    (creator_lambda : creator_fn) (init_lambda : act_fn) (priority : Z) : M unit :=
  registerNamedCreatorWithInit class_name instance_name creator_lambda
    init_lambda priority.

(** ** Predicates on client code and traces *)

(** A client call made for key [k] while the registry mutex was held. *)
Definition locked_call_of (k : string) (e : event) : Prop :=
  match e with
  | EvCreator k' _ b | EvInit k' _ b => k' = k /\ b = true
  | _ => True
  end.





Definition is_diag (e : event) : Prop :=
  match e with
  | EvWarn _ | EvError _ | EvBatchError _ => True
  | _ => False
  end.

Definition raises (o : act_outcome) : Prop := o = RaisesStd \/ o = RaisesOther.
Definition throws (o : creator_outcome) : Prop := o = ThrowsStd \/ o = ThrowsOther.

(** Client code that always succeeds: the creator returns a non-null
    handle and the initializer (if any) returns normally. *)
Definition good_creator (c : stored_creator) : Prop :=
  match c with
  | CPlain f => forall t, f t = Returns true
  | CWithInit _ f g => (forall t, f t = Returns true) /\ (forall t, g t = Done)
  | CClass _ ctor => forall t, ctor t = Done
  | CClassWithInit _ ctor oinit =>
      (forall t, ctor t = Done) /\
      (match oinit with Some g => forall t, g t = Done | None => True end)
  end.

(** Client code that always fails by throwing: the creator throws, or the
    creator succeeds and the initializer throws. *)
Definition throwing_creator (c : stored_creator) : Prop :=
  match c with
  | CPlain f => forall t, throws (f t)
  | CWithInit _ f g =>
      (forall t, throws (f t)) \/
      ((forall t, f t = Returns true) /\ (forall t, raises (g t)))
  | CClass _ ctor => forall t, raises (ctor t)
  | CClassWithInit _ ctor oinit =>
      (forall t, raises (ctor t)) \/
      ((forall t, ctor t = Done) /\
       exists g, oinit = Some g /\ forall t, raises (g t))
  end.

(** What one run of [lazyCreateInstance k] from [s] to [s'], appending the
    events [seg], does to the registry. *)
Definition lazy_post (k : string) (s : reg) (r : res (option nat)) (s' : reg)
    (seg : list event) : Prop :=
  r <> RDeadlock /\
  mutex_ s' = false /\
  creators_ s' = creators_ s /\
  init_queues_ s' = init_queues_ s /\
  trace s' = trace s ++ seg /\
  Forall (locked_call_of k) seg /\
  (forall k' v, instances_ s !! k' = Some v -> instances_ s' !! k' = Some v) /\
  (forall k' v, instances_ s' !! k' = Some v ->
     instances_ s !! k' = Some v \/ (k' = k /\ In (EvCreator k v true) seg)) /\
  (forall c, creators_ s !! k = Some c -> good_creator c ->
     is_Some (instances_ s' !! k)) /\
  (forall c, creators_ s !! k = Some c -> throwing_creator c ->
     instances_ s !! k = None ->
     instances_ s' !! k = None /\ ((exists e, r = RThrow e) \/ Exists is_diag seg)).

(** One queued closure of the batch loop, run at index [i]:
    [try { inits[i](); } catch (...) { log }]. *)
Definition batch_item (i : nat) (k : string) : M unit :=
  catch_all (_ ← lazyCreateInstance k; M_ret tt) (emit (EvBatchError i)).

(** ** Proof automation *)

Ltac split_post :=
  unfold lazy_post; simpl; rewrite <- ?app_assoc; simpl;
  refine (conj _ (conj _ (conj _ (conj _ (conj _ (conj _ (conj _ (conj _ (conj _ _))))))))).

Ltac forall_events :=
  repeat first [apply List.Forall_nil | apply List.Forall_cons; [simpl; auto|]].

Ltac exists_diag :=
  repeat first [apply List.Exists_cons_hd; simpl; exact I | apply List.Exists_cons_tl].

Ltac client_contra t :=
  unfold throws, raises in *;
  repeat (repeat match goal with
          | H : _ ∧ _ |- _ => destruct H
          | H : _ ∨ _ |- _ => destruct H
          | H : ∃ _, _ |- _ => destruct H
          end;
          repeat match goal with
          | H : ∀ _ : nat, _ |- _ =>
              pose proof (H t); pose proof (H (S t)); clear H
          end);
  congruence.

Ltac post_clause s Hc :=
  let k' := fresh "k'" in let v := fresh "v" in let H := fresh "H" in
  let c := fresh "c" in let Hc' := fresh "Hc'" in let Hg := fresh "Hg" in
  let Hi' := fresh "Hi'" in
  first
  [ solve [congruence | reflexivity | forall_events]
  | solve [intros k' v H; first [exact H | rewrite lookup_insert_ne; [exact H | intros ->; congruence]]]
  | solve [intros k' v H;
    first [ left; exact H
          | rewrite lookup_insert in H; case_decide; subst;
            [ right; injection H as <-; split; [reflexivity | simpl; auto]
            | left; exact H ] ]]
  | solve [intros c Hc' Hg; rewrite Hc in Hc'; injection Hc' as <-; simpl in Hg;
    first [solve [rewrite lookup_insert_eq; eauto] | client_contra (tick s)]]
  | solve [intros c Hc' Hg Hi'; rewrite Hc in Hc'; injection Hc' as <-; simpl in Hg;
    first [ client_contra (tick s)
          | split; [assumption | first [left; eexists; reflexivity | right; exists_diag]] ]] ].


(** ** Batch selection, registration sequences and API runs *)

(** The queued keys [executePriorInits max_priority] runs, in order. *)
Definition batch_selection (max_priority : Z) (s : reg) : list string :=
  collect_from (init_queues_ s) 0 (Z.to_nat (clamp max_priority 0 10 + 1)).


(** One call of a member registration method. *)
Inductive reg_op :=
| OpCreator (class_name : string) (f : creator_fn) (priority : Z)
| OpCreatorWithInit (class_name : string) (f : creator_fn) (g : act_fn) (priority : Z)
| OpNamedCreator (class_name instance_name : string) (f : creator_fn) (priority : Z)
| OpNamedCreatorWithInit (class_name instance_name : string) (f : creator_fn)
    (g : act_fn) (priority : Z)
| OpClass (class_name : string) (ctor : act_fn) (priority : Z)
| OpClassWithInit (class_name : string) (ctor : act_fn) (init : option act_fn)
    (priority : Z)
| OpNamedInstance (instance_name class_name : string) (ctor : act_fn) (priority : Z)
| OpNamedInstanceWithInit (instance_name class_name : string) (ctor : act_fn)
    (init : option act_fn) (priority : Z).

Definition run_reg_op (op : reg_op) : M unit :=
  match op with
  | OpCreator k f p => registerCreator k f p
  | OpCreatorWithInit k f g p => registerCreatorWithInit k f g p
  | OpNamedCreator c n f p => registerNamedCreator c n f p
  | OpNamedCreatorWithInit c n f g p => registerNamedCreatorWithInit c n f g p
  | OpClass k ctor p => registerClass k ctor p
  | OpClassWithInit k ctor i p => registerClassWithInit k ctor i p
  | OpNamedInstance n c ctor p => registerNamedInstance n c ctor p
  | OpNamedInstanceWithInit n c ctor i p => registerNamedInstanceWithInit n c ctor i p
  end.

(** The key a registration installs. *)
Definition op_key (op : reg_op) : string :=
  match op with
  | OpCreator k _ _ | OpCreatorWithInit k _ _ _ => k
  | OpClass k _ _ | OpClassWithInit k _ _ _ => k
  | OpNamedCreator c n _ _ | OpNamedCreatorWithInit c n _ _ _ => makeFullName c n
  | OpNamedInstance n c _ _ | OpNamedInstanceWithInit n c _ _ _ => makeFullName c n
  end.

Definition op_priority (op : reg_op) : Z :=
  match op with
  | OpCreator _ _ p | OpCreatorWithInit _ _ _ p | OpNamedCreator _ _ _ p
  | OpNamedCreatorWithInit _ _ _ _ p | OpClass _ _ p | OpClassWithInit _ _ _ p
  | OpNamedInstance _ _ _ p | OpNamedInstanceWithInit _ _ _ _ p => p
  end.

(** The [registerClass] family returns early on an existing key; the
    [registerCreator] family always installs and queues. *)
Definition op_keeps_first (op : reg_op) : bool :=
  match op with
  | OpClass _ _ _ | OpClassWithInit _ _ _ _
  | OpNamedInstance _ _ _ _ | OpNamedInstanceWithInit _ _ _ _ _ => true
  | _ => false
  end.

Definition op_pushes (s : reg) (op : reg_op) : bool :=
  negb (op_keeps_first op && has_creator s (op_key op)).

(** Running registrations in order; also returns the (key, effective
    priority) of each closure pushed onto a queue, in push order. *)
Fixpoint run_reg_ops (ops : list reg_op) (s : reg) : reg * list (string * Z) :=
  match ops with
  | [] => (s, [])
  | op :: rest =>
      let pushed :=
        if op_pushes s op then [(op_key op, clamp (op_priority op) 0 10)] else [] in
      let r := run_reg_ops rest (snd (run_reg_op op s)) in
      (fst r, pushed ++ snd r)
  end.

(** The keys of the pushed registrations with priority [p], [p+1], ...,
    [p+n-1], bucket after bucket, each bucket in push order. *)
Fixpoint buckets (regs : list (string * Z)) (p : Z) (n : nat) : list (string * Z) :=
  match n with
  | O => []
  | S n' => filter (fun r => r.2 = p) regs ++ buckets regs (p + 1)%Z n'
  end.

(** Calls of the public API. *)
Inductive api_call :=
| CallRegister (op : reg_op)
| CallForceInit (class_name : string)
| CallGetInstance (class_name : string)
| CallHasInstance (class_name : string)
| CallExecutePriorInits (max_priority : Z)
| CallExecuteInitsAtPriority (priority : Z)
| CallClear.

Definition run_call (c : api_call) : M unit :=
  match c with
  | CallRegister op => run_reg_op op
  | CallForceInit k => _ ← forceInit k; M_ret tt
  | CallGetInstance k => _ ← getInstance k; M_ret tt
  | CallHasInstance k => _ ← hasInstance k; M_ret tt
  | CallExecutePriorInits m => executePriorInits m
  | CallExecuteInitsAtPriority p => executeInitsAtPriority p
  | CallClear => clear
  end.

(** States reachable from a fresh registry by API calls that return
    (a call that blocks forever on the mutex ends the run). *)
Inductive reachable : reg -> Prop :=
| reachable_empty : reachable empty_reg
| reachable_step s c r s' :
    reachable s -> run_call c s = (r, s') -> r <> RDeadlock -> reachable s'.

(** ** Concrete registries *)

Definition ok_creator : creator_fn := fun _ => Returns true.
Definition ok_init : act_fn := fun _ => Done.
Definition throwing_init : act_fn := fun _ => RaisesStd.


(** [G] and [H] good, [Bad]'s initializer throws; all at priority 5. *)
Definition reg_GBH : reg :=
  snd (registerCreatorWithInit "H" ok_creator ok_init 5
    (snd (registerCreatorWithInit "Bad" ok_creator throwing_init 5
      (snd (registerCreatorWithInit "G" ok_creator ok_init 5 empty_reg))))).

(** A single lambda creator [A] at the default priority. *)
Definition reg_A : reg := snd (registerCreator "A" ok_creator 5 empty_reg).

(** [A] registered at priority 0. *)
Definition ops_A0 : list reg_op := [OpCreator "A" ok_creator 0].
Definition reg_A0 : reg := fst (run_reg_ops ops_A0 empty_reg).

(** The stored creator a registration installs. *)
Definition op_creator (op : reg_op) : stored_creator :=
  match op with
  | OpCreator _ f _ | OpNamedCreator _ _ f _ => CPlain f
  | OpCreatorWithInit k f g _ => CWithInit k f g
  | OpNamedCreatorWithInit c n f g _ => CWithInit (makeFullName c n) f g
  | OpClass k ctor _ => CClass k ctor
  | OpClassWithInit k ctor i _ => CClassWithInit k ctor i
  | OpNamedInstance n c ctor _ => CClass (makeFullName c n) ctor
  | OpNamedInstanceWithInit n c ctor i _ => CClassWithInit (makeFullName c n) ctor i
  end.

(** The state a registration leaves, read off the source: a keep-first
    registration on an existing key changes nothing; otherwise the key's
    creator is (re)placed, a warning is logged if it existed, and the key
    is pushed on the queue of the clamped priority. *)
Definition op_effect (s : reg) (op : reg_op) : reg :=
  let k := op_key op in
  let p := clamp (op_priority op) 0 10 in
  if op_keeps_first op && has_creator s k then s
  else mkReg (mutex_ s) (<[k := op_creator op]> (creators_ s)) (instances_ s)
         (<[p := default [] (init_queues_ s !! p) ++ [k]]> (init_queues_ s))
         (tick s) (trace s ++ (if has_creator s k then [EvWarn k] else [])).

(** The outcome of the client creator (or constructor) a stored creator
    calls first. *)
Definition act_as_creator (o : act_outcome) : creator_outcome :=
  match o with
  | Done => Returns true
  | RaisesStd => ThrowsStd
  | RaisesOther => ThrowsOther
  end.

Definition creator_first_outcome (c : stored_creator) (t : nat) : creator_outcome :=
  match c with
  | CPlain f | CWithInit _ f _ => f t
  | CClass _ ctor | CClassWithInit _ ctor _ => act_as_creator (ctor t)
  end.

(** A creator that always returns null, and two registries. *)
Definition null_creator : creator_fn := fun _ => Returns false.
Definition reg_Null : reg := snd (registerCreator "N" null_creator 5 empty_reg).
Definition reg_Bad : reg :=
  snd (registerCreatorWithInit "Bad" ok_creator throwing_init 5 empty_reg).
(** [registerClass<K>] twice, with two different constructors. *)
Definition reg_K2 : reg :=
  snd (registerClass "K" throwing_init 5 (snd (registerClass "K" ok_init 5 empty_reg))).

(** [A] after a batch [executePriorInits 10] has built it. *)
Definition reg_A_built : reg := snd (executePriorInits 10 reg_A).

(** Invariant of the reachable states: the mutex is free between calls,
    and every cached instance was returned by a creator call recorded in
    the trace. *)
Definition inv_built (s : reg) : Prop :=
  mutex_ s = false /\
  forall k v, instances_ s !! k = Some v -> In (EvCreator k v true) (trace s).

(** A named lambda creator [Db#main]. *)
Definition reg_Named : reg :=
  snd (registerNamedCreator "Db" "main" ok_creator 5 empty_reg).

(** Every key with a creator is queued at some priority in [0, 10], and
    every queued key lies in that range and has a creator. *)
Definition queued_inv (s : reg) : Prop :=
  (forall k, is_Some (creators_ s !! k) ->
     exists p, (0 <= p <= 10)%Z /\ k ∈ default [] (init_queues_ s !! p)) /\
  (forall p k, k ∈ default [] (init_queues_ s !! p) ->
     (0 <= p <= 10)%Z /\ is_Some (creators_ s !! k)).

(** Every cached instance belongs to a key that has a creator. *)
Definition cached_registered (s : reg) : Prop :=
  forall k, is_Some (instances_ s !! k) -> is_Some (creators_ s !! k).
(** ** Lazy creation: what one call does *)

Lemma lazy_spec (k : string) (s : reg) :
  mutex_ s = false ->
  exists seg, lazy_post k s (fst (lazyCreateInstance k s)) (snd (lazyCreateInstance k s)) seg.
Proof.
  intros Hm.
  unfold lazyCreateInstance, mbind, M_mbind, M_bind, with_lock, lock, get_state, M_ret.
  rewrite Hm; simpl.
  destruct (instances_ s !! k) as [v|] eqn:Hi; simpl.
  - exists []. unfold lazy_post; simpl; rewrite app_nil_r.
    refine (conj _ (conj _ (conj _ (conj _ (conj _ (conj _ (conj _ (conj _ (conj _ _))))))))).
    all: solve [congruence | reflexivity | forall_events | intros; left; assumption
               | intros; rewrite Hi; eauto | intros; congruence].
  - destruct (creators_ s !! k) as [c|] eqn:Hc; simpl.
    2:{ eexists. split_post. all: try first [congruence | reflexivity | forall_events].
        all: try (intros; congruence).
        intros; left; assumption. }
    destruct c as [f|name f g|name ctor|name ctor oinit]; simpl;
    unfold call_creator, catch_std, run_creator, run_ctor, run_init, emit, modify, M_ret, client_step, push_event, mbind, M_mbind, M_bind; simpl.
    + destruct (f (tick s)) as [[|]| |] eqn:Hf; simpl; eexists; split_post; post_clause s Hc.
    + destruct (f (tick s)) as [[|]| |] eqn:Hf; simpl;
      [destruct (g (S (tick s))) eqn:Hg; simpl | ..]; eexists; split_post; post_clause s Hc.
    + destruct (ctor (tick s)) eqn:Hf; simpl; eexists; split_post; post_clause s Hc.
    + destruct (ctor (tick s)) eqn:Hf; simpl;
      [destruct oinit as [g|]; simpl; [destruct (g (S (tick s))) eqn:Hg; simpl|] | ..];
      eexists; split_post; post_clause s Hc.
Qed.

Lemma batch_item_spec (i : nat) (k : string) (s : reg) :
  mutex_ s = false ->
  let s' := snd (batch_item i k s) in
  fst (batch_item i k s) = ROk tt /\
  exists seg,
    mutex_ s' = false /\
    creators_ s' = creators_ s /\
    init_queues_ s' = init_queues_ s /\
    trace s' = trace s ++ seg /\
    Forall (locked_call_of k) seg /\
    (forall k' v, instances_ s !! k' = Some v -> instances_ s' !! k' = Some v) /\
    (forall k' v, instances_ s' !! k' = Some v ->
       instances_ s !! k' = Some v \/ (k' = k /\ In (EvCreator k v true) seg)) /\
    (forall c, creators_ s !! k = Some c -> good_creator c ->
       is_Some (instances_ s' !! k)) /\
    (forall c, creators_ s !! k = Some c -> throwing_creator c ->
       instances_ s !! k = None -> instances_ s' !! k = None /\ Exists is_diag seg).
Proof.
  intros Hm.
  destruct (lazy_spec k s Hm) as [seg Hp].
  unfold batch_item, catch_all, mbind, M_mbind, M_bind, M_ret.
  destruct (lazyCreateInstance k s) as [r s0] eqn:Hl; simpl in Hp.
  destruct Hp as (Hr & Hm0 & Hc0 & Hq0 & Ht0 & Hf0 & Hmono & Hnew & Hgood & Hthr).
  destruct r as [a|e|]; simpl; [ | | congruence].
  - split; [reflexivity|]. exists seg.
    refine (conj _ (conj _ (conj _ (conj _ (conj _ (conj _ (conj _ (conj _ _))))))));
      auto.
    intros c Hc Ht Hi; destruct (Hthr c Hc Ht Hi) as [Hn [[e' He]|Hd]];
      [discriminate | auto].
  - split; [reflexivity|]. exists (seg ++ [EvBatchError i]).
    unfold emit, modify, push_event; simpl.
    refine (conj _ (conj _ (conj _ (conj _ (conj _ (conj _ (conj _ (conj _ _))))))));
      auto.
    + rewrite Ht0, app_assoc; reflexivity.
    + apply Forall_app; split; [exact Hf0 | repeat constructor].
    + intros k' v H; destruct (Hnew k' v H) as [?|[? ?]]; [left; auto | right].
      split; [auto | apply in_or_app; left; auto].
    + intros c Hc Ht Hi; split; [apply (Hthr c Hc Ht Hi)|].
      apply Exists_app; right; apply List.Exists_cons_hd; exact I.
Qed.

Lemma run_inits_unfold (i : nat) (k : string) (rest : list string) :
  run_inits i (k :: rest) = (batch_item i k;; run_inits (S i) rest).
Proof. reflexivity. Qed.

(** The batch loop over a list of queued keys. *)
Lemma run_inits_spec (keys : list string) :
  forall (i : nat) (s : reg), mutex_ s = false ->
  let s' := snd (run_inits i keys s) in
  fst (run_inits i keys s) = ROk tt /\
  mutex_ s' = false /\
  creators_ s' = creators_ s /\
  init_queues_ s' = init_queues_ s /\
  (forall k v, instances_ s !! k = Some v -> instances_ s' !! k = Some v) /\
  (forall k v, instances_ s' !! k = Some v ->
     instances_ s !! k = Some v \/ In (EvCreator k v true) (trace s')) /\
  (forall k c, In k keys -> creators_ s !! k = Some c -> good_creator c ->
     is_Some (instances_ s' !! k)) /\
  (forall k c, creators_ s !! k = Some c -> throwing_creator c ->
     instances_ s !! k = None -> instances_ s' !! k = None) /\
  exists segs,
    trace s' = trace s ++ concat segs /\
    Forall2 (fun k seg =>
      Forall (locked_call_of k) seg /\
      (forall c, creators_ s !! k = Some c -> throwing_creator c ->
         instances_ s !! k = None -> Exists is_diag seg)) keys segs.
Proof.
  induction keys as [|k rest IH]; intros i s Hm.
  - simpl. refine (conj _ (conj _ (conj _ (conj _ (conj _ (conj _ (conj _ (conj _ _))))))));
      auto; try (intros; tauto).
    exists []. rewrite app_nil_r. split; [reflexivity | constructor].
  - rewrite run_inits_unfold.
    destruct (batch_item_spec i k s Hm) as [Hr [seg Hb]].
    unfold mbind, M_mbind, M_bind.
    destruct (batch_item i k s) as [r1 s1] eqn:E; simpl in Hr, Hb; subst r1.
    destruct Hb as (Hm1 & Hc1 & Hq1 & Ht1 & Hf1 & Hmono1 & Hnew1 & Hgood1 & Hthr1).
    destruct (IH (S i) s1 Hm1) as
      (Hr2 & Hm2 & Hc2 & Hq2 & Hmono2 & Hnew2 & Hgood2 & Hthr2 & segs & Ht2 & Hsegs).
    set (s2 := snd (run_inits (S i) rest s1)) in *.
    (* a throwing entry stays uncached through the first item *)
    assert (Hthr1' : forall k' c, creators_ s !! k' = Some c -> throwing_creator c ->
              instances_ s !! k' = None -> instances_ s1 !! k' = None).
    { intros k' c Hc Ht Hi.
      destruct (instances_ s1 !! k') as [v|] eqn:Ev; [|reflexivity].
      destruct (Hnew1 k' v Ev) as [H|[-> _]]; [congruence|].
      rewrite (proj1 (Hthr1 c Hc Ht Hi)) in Ev; discriminate. }
    refine (conj Hr2 (conj Hm2 (conj _ (conj _ (conj _ (conj _ (conj _ (conj _ _)))))))).
    + congruence.
    + congruence.
    + intros k' v H; apply Hmono2, Hmono1, H.
    + intros k' v H. destruct (Hnew2 k' v H) as [H1|H1]; [|right; exact H1].
      destruct (Hnew1 k' v H1) as [H0|[-> Hin]]; [left; exact H0|].
      right. rewrite Ht2, Ht1. apply in_or_app; left; apply in_or_app; right; exact Hin.
    + intros k' c [<-|Hin] Hc Hg.
      * destruct (Hgood1 c Hc Hg) as [v Hv]. exists v. apply Hmono2, Hv.
      * rewrite <- Hc1 in Hc. apply (Hgood2 k' c Hin Hc Hg).
    + intros k' c Hc Ht Hi. apply (Hthr2 k' c); [congruence | exact Ht |].
      apply (Hthr1' k' c Hc Ht Hi).
    + exists (seg :: segs). split.
      * rewrite Ht2, Ht1; simpl; rewrite app_assoc; reflexivity.
      * constructor.
        -- split; [exact Hf1|]. intros c Hc Ht Hi; apply (Hthr1 c Hc Ht Hi).
        -- eapply Forall2_impl; [exact Hsegs|].
           intros k' seg' [Hf' Hd']. split; [exact Hf'|].
           intros c Hc Ht Hi. apply (Hd' c); [congruence | exact Ht |].
           apply (Hthr1' k' c Hc Ht Hi).
Qed.

Lemma set_mutex_same (s : reg) : set_mutex (mutex_ s) s = s.
Proof. destruct s; reflexivity. Qed.

Lemma set_mutex_twice (b b' : bool) (s : reg) :
  set_mutex b (set_mutex b' s) = set_mutex b s.
Proof. reflexivity. Qed.

(** [executePriorInits m] is the batch loop over [batch_selection m]. *)
Lemma executePriorInits_eq (m : Z) (s : reg) :
  mutex_ s = false ->
  executePriorInits m s = run_inits 0 (batch_selection m s) s.
Proof.
  intros Hm.
  unfold executePriorInits, collectInitsUpToPriority, executeAllCollectedInits,
    with_lock, lock, get_state, mbind, M_mbind, M_bind, M_ret.
  rewrite Hm; simpl.
  assert (Hs : set_mutex false (set_mutex true s) = s)
    by (destruct s; simpl in *; subst; reflexivity).
  rewrite Hs.
  destruct (run_inits_spec (batch_selection m s) 0 s Hm) as (Hr & Hm1 & _).
  unfold batch_selection in *.
  destruct (run_inits 0 _ s) as [r1 s1]; simpl in Hr, Hm1; subst r1.
  rewrite Hm1.
  assert (Hs1 : set_mutex false (set_mutex true s1) = s1)
    by (destruct s1; simpl in *; subst; reflexivity).
  rewrite Hs1. reflexivity.
Qed.

Lemma executeInitsAtPriority_eq (p : Z) (s : reg) :
  mutex_ s = false ->
  executeInitsAtPriority p s =
  run_inits 0 (default [] (init_queues_ s !! clamp p 0 10)) s.
Proof.
  intros Hm.
  unfold executeInitsAtPriority, collectInitsAtPriority, executeAllCollectedInits,
    with_lock, lock, get_state, mbind, M_mbind, M_bind, M_ret.
  rewrite Hm; simpl.
  assert (Hs : set_mutex false (set_mutex true s) = s)
    by (destruct s; simpl in *; subst; reflexivity).
  rewrite Hs. reflexivity.
Qed.








(** ** C1: the batch pass runs entry by entry *)




(** ** C4: [getInstance] on a key with no cached instance *)

(** C4 (code_bug): [getInstance] holds the registry mutex and calls
    [lazyCreateInstance], which locks the same [std::mutex] again: for a
    key with no cached instance the call blocks forever, before any
    creator runs. *)
Theorem getInstance_uncached_deadlocks (k : string) (s : reg) :
  mutex_ s = false -> instances_ s !! k = None ->
  fst (getInstance k s) = RDeadlock /\ trace (snd (getInstance k s)) = trace s.
Proof.
  intros Hm Hi.
  unfold getInstance, lazyCreateInstance, with_lock, lock, get_state,
    mbind, M_mbind, M_bind, M_ret.
  rewrite Hm; simpl. rewrite Hi; simpl. split; reflexivity.
Qed.

Lemma getInstance_uncached_deadlocks_witness :
  (mutex_ reg_A = false /\ instances_ reg_A !! "A" = None) /\
  fst (getInstance "A" reg_A) = RDeadlock /\
  trace (snd (getInstance "A" reg_A)) = trace reg_A.
Proof.
  split; [split; vm_compute; reflexivity|].
  apply getInstance_uncached_deadlocks; vm_compute; reflexivity.
Defined.

(** ** C5: failure isolation in the batch *)

(** C5: the batch loop never propagates an exception (nor blocks); every
    listed key whose client code succeeds is created (and initialized) no
    matter what the other entries do; and the processing of a listed key
    whose client code throws emits a diagnostic. *)
Theorem executeAllCollectedInits_isolates_failures (inits : list string) (s : reg) :
  mutex_ s = false ->
  let s' := snd (executeAllCollectedInits inits s) in
  fst (executeAllCollectedInits inits s) = ROk tt /\
  mutex_ s' = false /\
  (forall k c, In k inits -> creators_ s !! k = Some c -> good_creator c ->
     is_Some (instances_ s' !! k)) /\
  exists segs,
    trace s' = trace s ++ concat segs /\
    Forall2 (fun k seg =>
      forall c, creators_ s !! k = Some c -> throwing_creator c ->
        instances_ s !! k = None -> Exists is_diag seg) inits segs.
Proof.
  intros Hm. unfold executeAllCollectedInits.
  destruct (run_inits_spec inits 0 s Hm)
    as (Hr & Hm' & _ & _ & _ & _ & Hgood & _ & segs & Ht & Hsegs).
  refine (conj Hr (conj Hm' (conj Hgood _))).
  exists segs. split; [exact Ht|].
  eapply Forall2_impl; [exact Hsegs|]. intros k seg [_ H]; exact H.
Qed.

Lemma executeAllCollectedInits_isolates_failures_witness :
  mutex_ reg_GBH = false /\
  let s' := snd (executeAllCollectedInits ["G"; "Bad"; "H"] reg_GBH) in
  fst (executeAllCollectedInits ["G"; "Bad"; "H"] reg_GBH) = ROk tt /\
  mutex_ s' = false /\
  (forall k c, In k ["G"; "Bad"; "H"] -> creators_ reg_GBH !! k = Some c ->
     good_creator c -> is_Some (instances_ s' !! k)) /\
  exists segs,
    trace s' = trace reg_GBH ++ concat segs /\
    Forall2 (fun k seg =>
      forall c, creators_ reg_GBH !! k = Some c -> throwing_creator c ->
        instances_ reg_GBH !! k = None -> Exists is_diag seg) ["G"; "Bad"; "H"] segs.
Proof.
  split; [vm_compute; reflexivity|].
  apply executeAllCollectedInits_isolates_failures. vm_compute; reflexivity.
Defined.

(** ** C9: client code runs with the registry mutex held *)

(** C9 (code_bug): every creator and initializer call made by
    [lazyCreateInstance] (the path of [forceInit] and of every batch
    closure) happens while the registry mutex is held. *)
Theorem lazyCreateInstance_calls_client_locked (k : string) (s : reg) :
  mutex_ s = false ->
  exists seg,
    trace (snd (lazyCreateInstance k s)) = trace s ++ seg /\
    Forall (locked_call_of k) seg.
Proof.
  intros Hm. destruct (lazy_spec k s Hm) as [seg Hp].
  destruct Hp as (_ & _ & _ & _ & Ht & Hf & _).
  exists seg. split; assumption.
Qed.

Lemma lazyCreateInstance_calls_client_locked_witness :
  mutex_ reg_A = false /\
  trace (snd (lazyCreateInstance "A" reg_A)) = [EvCreator "A" 0 true] /\
  exists seg,
    trace (snd (lazyCreateInstance "A" reg_A)) = trace reg_A ++ seg /\
    Forall (locked_call_of "A") seg.
Proof.
  split; [vm_compute; reflexivity|].
  split; [vm_compute; reflexivity|].
  apply lazyCreateInstance_calls_client_locked. vm_compute; reflexivity.
Defined.

(** ** Registration *)

Lemma run_reg_op_effect (op : reg_op) (s : reg) :
  mutex_ s = false -> run_reg_op op s = (ROk tt, op_effect s op).
Proof.
  intros Hm. destruct s as [mx cr ins q t tr]; simpl in Hm; subst mx.
  destruct op; simpl;
  unfold registerCreator, registerCreatorWithInit, registerNamedCreator,
    registerNamedCreatorWithInit, registerClass, registerClassWithInit,
    registerNamedInstance, registerNamedInstanceWithInit, op_effect,
    with_lock, lock, get_state, install_creator, addToInitQueue, emit, modify,
    push_event, set_creators, set_queues, set_mutex, mbind, M_mbind, M_bind, M_ret;
  simpl; destruct (has_creator _ _); simpl; try rewrite app_nil_r; reflexivity.
Qed.

(** The first client call of a lazy creation on a registered key with no
    cached instance is its creator. *)
Lemma lazy_first_call (k : string) (c : stored_creator) (s : reg) :
  mutex_ s = false -> creators_ s !! k = Some c -> instances_ s !! k = None ->
  exists seg,
    trace (snd (lazyCreateInstance k s)) = trace s ++ EvCreator k (tick s) true :: seg.
Proof.
  intros Hm Hc Hi.
  unfold lazyCreateInstance, mbind, M_mbind, M_bind, with_lock, lock, get_state, M_ret.
  rewrite Hm; simpl. rewrite Hi; simpl. rewrite Hc; simpl.
  destruct c as [f|name f g|name ctor|name ctor oinit]; simpl;
  unfold call_creator, catch_std, run_creator, run_ctor, run_init, emit, modify, M_ret,
    client_step, push_event, mbind, M_mbind, M_bind; simpl.
  - destruct (f (tick s)) as [[|]| |]; simpl; eexists; rewrite <- ?app_assoc; reflexivity.
  - destruct (f (tick s)) as [[|]| |]; simpl;
      [destruct (g (S (tick s))); simpl | ..];
      eexists; rewrite <- ?app_assoc; reflexivity.
  - destruct (ctor (tick s)); simpl; eexists; rewrite <- ?app_assoc; reflexivity.
  - destruct (ctor (tick s)); simpl;
      [destruct oinit as [g|]; simpl; [destruct (g (S (tick s))); simpl|] | ..];
      eexists; rewrite <- ?app_assoc; reflexivity.
Qed.

(** ** C2: an initializer that throws *)

(** C2 (counterexample): with [registerCreatorWithInit] and an
    initializer that throws, the built instance is not cached, and a
    second lazy creation runs the creator (and the initializer) again. *)
Lemma with_init_failure_not_cached :
  instances_ (snd (forceInit "Bad" reg_Bad)) !! "Bad" = None /\
  trace (snd (forceInit "Bad" (snd (forceInit "Bad" reg_Bad)))) =
    [EvCreator "Bad" 0 true; EvInit "Bad" 0 true; EvError "Bad";
     EvCreator "Bad" 2 true; EvInit "Bad" 2 true; EvError "Bad"].
Proof. split; vm_compute; reflexivity. Qed.

(** C2 (amended): for an entry registered with an initializer
    ([registerCreatorWithInit], [registerClassWithInit] and their named
    forms), the initializer runs inside the stored creator; when it throws
    a [std::exception] the wrapper logs a diagnostic and returns null, so
    the lazy creation returns empty, caches nothing (the built instance is
    dropped), and the next lazy creation calls the creator again. *)
Theorem with_init_failure_discards_instance (k name : string) (g : act_fn)
    (c : stored_creator) (s : reg) :
  mutex_ s = false -> creators_ s !! k = Some c -> instances_ s !! k = None ->
  ((exists f, c = CWithInit name f g /\ f (tick s) = Returns true) \/
   (exists ctor, c = CClassWithInit name ctor (Some g) /\ ctor (tick s) = Done)) ->
  g (S (tick s)) = RaisesStd ->
  let s' := snd (lazyCreateInstance k s) in
  fst (lazyCreateInstance k s) = ROk None /\
  instances_ s' = instances_ s /\
  creators_ s' = creators_ s /\
  mutex_ s' = false /\
  trace s' = trace s ++ [EvCreator k (tick s) true; EvInit k (tick s) true; EvError name] /\
  exists seg,
    trace (snd (lazyCreateInstance k s')) = trace s' ++ EvCreator k (tick s') true :: seg.
Proof.
  intros Hm Hc Hi Hcase Hg.
  assert (Hrun : lazyCreateInstance k s =
    (ROk None, mkReg false (creators_ s) (instances_ s) (init_queues_ s) (S (S (tick s)))
       (trace s ++ [EvCreator k (tick s) true; EvInit k (tick s) true; EvError name]))).
  { unfold lazyCreateInstance, mbind, M_mbind, M_bind, with_lock, lock, get_state, M_ret.
    rewrite Hm; simpl. rewrite Hi; simpl. rewrite Hc; simpl.
    destruct Hcase as [[f [-> Hf]]|[ctor [-> Hf]]];
    unfold call_creator, catch_std, run_creator, run_ctor, run_init, emit, modify, M_ret,
      client_step, push_event, mbind, M_mbind, M_bind; simpl; rewrite Hf; simpl;
    rewrite Hg; simpl; rewrite <- !app_assoc; reflexivity. }
  simpl. rewrite Hrun; simpl.
  refine (conj eq_refl (conj eq_refl (conj eq_refl (conj eq_refl (conj eq_refl _))))).
  apply (lazy_first_call k c); simpl; first [reflexivity | assumption].
Qed.

Lemma with_init_failure_discards_instance_witness :
  (mutex_ reg_Bad = false /\
   creators_ reg_Bad !! "Bad" = Some (CWithInit "Bad" ok_creator throwing_init) /\
   instances_ reg_Bad !! "Bad" = None /\
   ok_creator (tick reg_Bad) = Returns true /\
   throwing_init (S (tick reg_Bad)) = RaisesStd) /\
  let s' := snd (lazyCreateInstance "Bad" reg_Bad) in
  fst (lazyCreateInstance "Bad" reg_Bad) = ROk None /\
  instances_ s' = instances_ reg_Bad /\
  creators_ s' = creators_ reg_Bad /\
  mutex_ s' = false /\
  trace s' = trace reg_Bad ++
    [EvCreator "Bad" (tick reg_Bad) true; EvInit "Bad" (tick reg_Bad) true; EvError "Bad"] /\
  exists seg,
    trace (snd (lazyCreateInstance "Bad" s')) = trace s' ++ EvCreator "Bad" (tick s') true :: seg.
Proof.
  split; [repeat split; vm_compute; reflexivity|].
  apply (with_init_failure_discards_instance "Bad" "Bad" throwing_init
           (CWithInit "Bad" ok_creator throwing_init));
    [vm_compute; reflexivity | vm_compute; reflexivity | vm_compute; reflexivity | |
     vm_compute; reflexivity].
  left. exists ok_creator. split; [reflexivity | vm_compute; reflexivity].
Defined.

(** ** C3: registering an existing key *)

(** C3 (counterexample): [registerClass] on a key that already has a
    creator keeps the first creator and logs nothing. *)
Lemma registerClass_keeps_first :
  creators_ reg_K2 !! "K" = Some (CClass "K" ok_init) /\
  creators_ reg_K2 !! "K" <> Some (CClass "K" throwing_init) /\
  trace reg_K2 = [].
Proof.
  split; [vm_compute; reflexivity|]. split; [|vm_compute; reflexivity].
  replace (creators_ reg_K2 !! "K") with (Some (CClass "K" ok_init))
    by (vm_compute; reflexivity).
  intros H. injection H as H. apply (f_equal (fun h => h 0)) in H. discriminate H.
Qed.

(** C3 (amended): registering a key that already has a creator through
    [registerCreator], [registerCreatorWithInit] or their named forms logs
    a warning and replaces the stored creator by the new one (the map keeps
    one creator per key, and cached instances are left as they are);
    through [registerClass], [registerClassWithInit] or
    [registerNamedInstance(WithInit)] it changes nothing and logs
    nothing. *)
Theorem reregistration_replaces_or_keeps_first (op : reg_op) (s : reg) :
  mutex_ s = false -> has_creator s (op_key op) = true ->
  let s' := snd (run_reg_op op s) in
  fst (run_reg_op op s) = ROk tt /\
  (op_keeps_first op = false ->
     creators_ s' = <[op_key op := op_creator op]> (creators_ s) /\
     instances_ s' = instances_ s /\
     trace s' = trace s ++ [EvWarn (op_key op)]) /\
  (op_keeps_first op = true -> s' = s).
Proof.
  intros Hm Hh. simpl. rewrite (run_reg_op_effect op s Hm); simpl.
  unfold op_effect. rewrite Hh.
  split; [reflexivity|]. split.
  - intros Hk. rewrite Hk; simpl. repeat split.
  - intros Hk. rewrite Hk; reflexivity.
Qed.

Lemma reregistration_replaces_or_keeps_first_witness :
  (mutex_ reg_A = false /\ has_creator reg_A "A" = true) /\
  let s' := snd (run_reg_op (OpCreator "A" null_creator 5) reg_A) in
  fst (run_reg_op (OpCreator "A" null_creator 5) reg_A) = ROk tt /\
  (op_keeps_first (OpCreator "A" null_creator 5) = false ->
     creators_ s' = <["A" := CPlain null_creator]> (creators_ reg_A) /\
     instances_ s' = instances_ reg_A /\
     trace s' = trace reg_A ++ [EvWarn "A"]) /\
  (op_keeps_first (OpCreator "A" null_creator 5) = true -> s' = reg_A).
Proof.
  split; [split; vm_compute; reflexivity|].
  apply (reregistration_replaces_or_keeps_first (OpCreator "A" null_creator 5) reg_A);
    vm_compute; reflexivity.
Defined.

(** ** C6: a creator that throws or returns null *)

(** C6 (counterexample): a lambda creator that returns an empty handle
    leaves nothing cached, but no diagnostic is logged. *)
Lemma null_creator_no_diagnostic :
  fst (forceInit "N" reg_Null) = ROk None /\
  trace (snd (forceInit "N" reg_Null)) = [EvCreator "N" 0 true] /\
  ~ Exists is_diag (trace (snd (forceInit "N" reg_Null))).
Proof.
  split; [vm_compute; reflexivity|]. split; [vm_compute; reflexivity|].
  replace (trace (snd (forceInit "N" reg_Null))) with [EvCreator "N" 0 true]
    by (vm_compute; reflexivity).
  intros H. inversion H as [? ? Hd|? ? Hd]; subst.
  - exact Hd.
  - inversion Hd.
Qed.

(** C6 (amended): when lazy creation finds no cached instance and the
    creator returns an empty handle or throws, nothing is cached, the
    creator map is unchanged and the next lazy creation calls the creator
    again.  On an empty handle or a [std::exception] the call returns
    empty, and a diagnostic is logged exactly in the [std::exception]
    case; any other exception propagates out of the call. *)
Theorem lazy_creation_failure_retries (k : string) (c : stored_creator) (s : reg)
    (o : creator_outcome) :
  mutex_ s = false -> creators_ s !! k = Some c -> instances_ s !! k = None ->
  creator_first_outcome c (tick s) = o -> o <> Returns true ->
  let s' := snd (lazyCreateInstance k s) in
  fst (lazyCreateInstance k s) =
    (match o with ThrowsOther => RThrow OtherException | _ => ROk None end) /\
  instances_ s' = instances_ s /\
  creators_ s' = creators_ s /\
  mutex_ s' = false /\
  (exists seg,
     trace s' = trace s ++ EvCreator k (tick s) true :: seg /\
     (Exists is_diag seg <-> o = ThrowsStd)) /\
  (exists seg',
     trace (snd (lazyCreateInstance k s')) = trace s' ++ EvCreator k (tick s') true :: seg').
Proof.
  intros Hm Hc Hi Ho Hne.
  assert (Hrun : exists seg t',
    lazyCreateInstance k s =
      ((match o with ThrowsOther => RThrow OtherException | _ => ROk None end),
       mkReg false (creators_ s) (instances_ s) (init_queues_ s) t'
         (trace s ++ EvCreator k (tick s) true :: seg)) /\
    (Exists is_diag seg <-> o = ThrowsStd)).
  { unfold lazyCreateInstance, mbind, M_mbind, M_bind, with_lock, lock, get_state, M_ret.
    rewrite Hm; simpl. rewrite Hi; simpl. rewrite Hc; simpl.
    destruct c as [f|name f g|name ctor|name ctor oinit]; simpl in Ho;
    unfold call_creator, catch_std, run_creator, run_ctor, run_init, emit, modify, M_ret,
      client_step, push_event, mbind, M_mbind, M_bind; simpl.
    1,2: rewrite Ho; destruct o as [[|]| |]; [congruence| | |]; simpl;
         eexists; eexists; rewrite <- ?app_assoc; simpl;
         (split; [reflexivity|]);
         split; intros H; try congruence;
         repeat first [apply List.Exists_cons_hd; simpl; exact I | inversion H; subst; clear H];
         try match goal with H : Exists _ _ |- _ => inversion H end;
         simpl in *; try tauto.
    all: destruct (ctor (tick s)); simpl in Ho; subst o; [congruence| |]; simpl;
         eexists; eexists; rewrite <- ?app_assoc; simpl;
         (split; [reflexivity|]);
         split; intros H; try congruence;
         repeat first [apply List.Exists_cons_hd; simpl; exact I | inversion H; subst; clear H];
         try match goal with H : Exists _ _ |- _ => inversion H end;
         simpl in *; try tauto. }
  destruct Hrun as (seg & t' & Hrun & Hd).
  simpl. rewrite Hrun; simpl.
  refine (conj eq_refl (conj eq_refl (conj eq_refl (conj eq_refl (conj _ _))))).
  - exists seg. split; [reflexivity | exact Hd].
  - apply (lazy_first_call k c); simpl; first [reflexivity | assumption].
Qed.

Lemma lazy_creation_failure_retries_witness :
  (mutex_ reg_Null = false /\ creators_ reg_Null !! "N" = Some (CPlain null_creator) /\
   instances_ reg_Null !! "N" = None /\
   creator_first_outcome (CPlain null_creator) (tick reg_Null) = Returns false /\
   Returns false <> Returns true) /\
  let s' := snd (lazyCreateInstance "N" reg_Null) in
  fst (lazyCreateInstance "N" reg_Null) = ROk None /\
  instances_ s' = instances_ reg_Null /\
  creators_ s' = creators_ reg_Null /\
  mutex_ s' = false /\
  (exists seg,
     trace s' = trace reg_Null ++ EvCreator "N" (tick reg_Null) true :: seg /\
     (Exists is_diag seg <-> Returns false = ThrowsStd)) /\
  (exists seg',
     trace (snd (lazyCreateInstance "N" s')) = trace s' ++ EvCreator "N" (tick s') true :: seg').
Proof.
  split; [repeat split; try (vm_compute; reflexivity); discriminate|].
  apply (lazy_creation_failure_retries "N" (CPlain null_creator) reg_Null (Returns false));
    try (vm_compute; reflexivity). discriminate.
Defined.

(** ** Queues and the batch selection *)

Lemma clamp_range (v : Z) : (0 <= clamp v 0 10 <= 10)%Z.
Proof. unfold clamp. destruct (v <? 0)%Z eqn:E1; [lia|]. destruct (10 <? v)%Z eqn:E2; lia. Qed.

Lemma clamp_id (v : Z) : (0 <= v <= 10)%Z -> clamp v 0 10 = v.
Proof. intros H. unfold clamp. destruct (v <? 0)%Z eqn:E1; [lia|]. destruct (10 <? v)%Z eqn:E2; lia. Qed.

(** The queue of priority [q] after a sequence of registrations is the old
    queue followed by the keys pushed at priority [q], in push order. *)
Lemma run_reg_ops_queues (ops : list reg_op) :
  forall s : reg, mutex_ s = false ->
  mutex_ (fst (run_reg_ops ops s)) = false /\
  (forall q, default [] (init_queues_ (fst (run_reg_ops ops s)) !! q) =
             default [] (init_queues_ s !! q) ++
             map fst (filter (fun r => r.2 = q) (snd (run_reg_ops ops s)))) /\
  Forall (fun r => (0 <= r.2 <= 10)%Z) (snd (run_reg_ops ops s)).
Proof.
  induction ops as [|op rest IH]; intros s Hm.
  - simpl. split; [exact Hm|]. split; [|constructor].
    intros q. rewrite app_nil_r. reflexivity.
  - simpl. rewrite (run_reg_op_effect op s Hm); simpl.
    assert (Hm1 : mutex_ (op_effect s op) = false).
    { unfold op_effect. destruct (_ && _); simpl; exact Hm. }
    destruct (IH (op_effect s op) Hm1) as (Hm2 & Hq2 & Hr2).
    split; [exact Hm2|]. unfold op_pushes.
    destruct (op_keeps_first op && has_creator s (op_key op)) eqn:Hk; simpl.
    + assert (He : op_effect s op = s) by (unfold op_effect; rewrite Hk; reflexivity).
      rewrite He in Hq2, Hr2 |- *. split; [exact Hq2 | exact Hr2].
    + assert (Hq : init_queues_ (op_effect s op) =
        <[clamp (op_priority op) 0 10 :=
            default [] (init_queues_ s !! clamp (op_priority op) 0 10) ++ [op_key op]]>
          (init_queues_ s)) by (unfold op_effect; rewrite Hk; reflexivity).
      rewrite Hq in Hq2.
      split.
      * intros q. rewrite Hq2, filter_cons.
        destruct (decide (clamp (op_priority op) 0 10 = q)) as [<-|Hne].
        -- rewrite lookup_insert_eq, decide_True by reflexivity; simpl.
           rewrite <- app_assoc. reflexivity.
        -- rewrite lookup_insert_ne, decide_False by exact Hne. reflexivity.
      * constructor; [apply clamp_range | exact Hr2].
Qed.

Lemma collect_from_buckets (Q : gmap Z (list string)) (regs : list (string * Z)) :
  (forall q, default [] (Q !! q) = map fst (filter (fun r => r.2 = q) regs)) ->
  forall n p, collect_from Q p n = map fst (buckets regs p n).
Proof.
  intros HQ n. induction n as [|n IH]; intros p; simpl; [reflexivity|].
  rewrite HQ, IH, map_app. reflexivity.
Qed.

Lemma filter_none {A} (P : A -> Prop) `{forall x, Decision (P x)} (l : list A) :
  (forall x, x ∈ l -> ~ P x) -> filter P l = [].
Proof.
  induction l as [|x l IH]; intros Hn; [reflexivity|].
  rewrite filter_cons_False by (apply Hn; constructor).
  apply IH. intros y Hy; apply Hn; constructor; exact Hy.
Qed.

Lemma elem_of_buckets (regs : list (string * Z)) (n : nat) :
  forall p r, r ∈ buckets regs p n <-> r ∈ regs /\ (p <= r.2 < p + Z.of_nat n)%Z.
Proof.
  induction n as [|n IH]; intros p r; simpl.
  - split; [intros H; inversion H | intros [_ H]; lia].
  - rewrite elem_of_app, list_elem_of_filter, IH.
    split.
    + intros [[Hp Hr] | [Hr Hb]]; split; [exact Hr | lia | exact Hr | lia].
    + intros [Hr Hb].
      destruct (decide (r.2 = p)) as [Hp | Hp]; [left | right]; split;
        [exact Hp | exact Hr | exact Hr | lia].
Qed.

Lemma filter_buckets (regs : list (string * Z)) (n : nat) :
  forall p q,
  filter (fun r => r.2 = q) (buckets regs p n) =
  if bool_decide (p <= q < p + Z.of_nat n)%Z
  then filter (fun r => r.2 = q) regs else [].
Proof.
  induction n as [|n IH]; intros p q; simpl.
  - rewrite bool_decide_false by lia. reflexivity.
  - rewrite filter_app, IH, list_filter_filter.
    destruct (decide (p = q)) as [<-|Hne].
    + rewrite (list_filter_iff _ (fun r : string * Z => r.2 = p))
        by (intros; tauto).
      rewrite bool_decide_false by lia.
      rewrite bool_decide_true by lia. apply app_nil_r.
    + rewrite filter_none by (intros x _ [? ?]; congruence). simpl.
      destruct (decide (p + 1 <= q < p + 1 + Z.of_nat n)%Z).
      * rewrite !bool_decide_true by lia. reflexivity.
      * rewrite !bool_decide_false by lia. reflexivity.
Qed.

Lemma StronglySorted_app {A} (R : A -> A -> Prop) (l1 l2 : list A) :
  StronglySorted R l1 -> StronglySorted R l2 ->
  (forall x y, x ∈ l1 -> y ∈ l2 -> R x y) -> StronglySorted R (l1 ++ l2).
Proof.
  induction l1 as [|x l1 IH]; intros H1 H2 H12; simpl; [exact H2|].
  inversion H1 as [|? ? Hs Hf]; subst.
  constructor.
  - apply IH; [exact Hs | exact H2 |]. intros a b Ha Hb; apply H12; set_solver.
  - apply Forall_app. split; [exact Hf|].
    apply Forall_forall. intros y Hy. apply H12; [set_solver | exact Hy].
Qed.

Lemma buckets_sorted (regs : list (string * Z)) (n : nat) :
  forall p, StronglySorted (fun a b => (a.2 <= b.2)%Z) (buckets regs p n).
Proof.
  induction n as [|n IH]; intros p; simpl; [constructor|].
  apply StronglySorted_app; [| apply IH |].
  - assert (Hall : Forall (fun r => r.2 = p) (filter (fun r => r.2 = p) regs)).
    { apply Forall_forall. intros x Hx.
      apply list_elem_of_filter in Hx. tauto. }
    induction (filter (fun r => r.2 = p) regs) as [|x l IHl]; [constructor|].
    inversion Hall as [|? ? Hx Hl]; subst.
    constructor; [apply IHl; exact Hl|].
    eapply Forall_impl; [exact Hl|]. intros y Hy; simpl in *; lia.
  - intros x y Hx Hy. apply list_elem_of_filter in Hx.
    apply elem_of_buckets in Hy. lia.
Qed.

(** C7 (counterexample): [A] is registered at priority 0, yet
    [executePriorInits (-1)] selects it and builds its instance: the bound
    [-1] is clamped to 0 before selecting. *)
Lemma executePriorInits_negative_bound_selects :
  snd (run_reg_ops ops_A0 empty_reg) = [("A", 0%Z)] /\
  batch_selection (-1) reg_A0 = ["A"] /\
  instances_ (snd (executePriorInits (-1) reg_A0)) !! "A" = Some 0.
Proof. refine (conj _ (conj _ _)); vm_compute; reflexivity. Qed.

(** C7 (amended): after any sequence [ops] of registrations on a fresh
    registry, [executePriorInits m] runs, one after the other, the queued
    registrations [sel] whose effective (clamped) priority is at most
    [clamp m 0 10]; [sel] is sorted by ascending priority, and within one
    priority it keeps the push order of the registrations. *)
Theorem executePriorInits_priority_order (ops : list reg_op) (m : Z) :
  let s := fst (run_reg_ops ops empty_reg) in
  let regs := snd (run_reg_ops ops empty_reg) in
  let sel := buckets regs 0 (Z.to_nat (clamp m 0 10 + 1)) in
  executePriorInits m s = run_inits 0 (map fst sel) s /\
  StronglySorted (fun a b => (a.2 <= b.2)%Z) sel /\
  (forall r, r ∈ sel <-> r ∈ regs /\ (r.2 <= clamp m 0 10)%Z) /\
  (forall q, filter (fun r => r.2 = q) sel =
     if bool_decide (0 <= q <= clamp m 0 10)%Z
     then filter (fun r => r.2 = q) regs else []).
Proof.
  intros s regs sel.
  destruct (run_reg_ops_queues ops empty_reg eq_refl) as (Hm & Hq & Hr).
  fold s regs in Hm, Hq, Hr.
  pose proof (clamp_range m) as Hc.
  assert (HQ : forall q, default [] (init_queues_ s !! q) =
                         map fst (filter (fun r => r.2 = q) regs)).
  { intros q. rewrite Hq. reflexivity. }
  refine (conj _ (conj _ (conj _ _))).
  - rewrite executePriorInits_eq by exact Hm.
    unfold batch_selection. rewrite (collect_from_buckets _ regs HQ). reflexivity.
  - apply buckets_sorted.
  - intros r. unfold sel. rewrite elem_of_buckets.
    rewrite Forall_forall in Hr.
    split; intros [Hin Hb]; split; try exact Hin.
    + lia.
    + specialize (Hr r Hin). lia.
  - intros q. unfold sel. rewrite filter_buckets.
    case_bool_decide; case_bool_decide; reflexivity || lia.
Qed.

(** C8 (code bug): every member registration method pushes its key onto
    the queue of the clamped priority [clamp p 0 10], but the free function
    [registerCreator<T>] drops its [priority] argument and always queues
    its key at priority 5. *)
Theorem registration_priority_clamped (op : reg_op) (k : string)
    (f : creator_fn) (p : Z) (s : reg) :
  mutex_ s = false ->
  (op_pushes s op = true ->
   init_queues_ (snd (run_reg_op op s)) =
     <[clamp (op_priority op) 0 10 :=
        default [] (init_queues_ s !! clamp (op_priority op) 0 10) ++ [op_key op]]>
       (init_queues_ s)) /\
  init_queues_ (snd (registerCreator_T k f p s)) =
    <[5%Z := default [] (init_queues_ s !! 5%Z) ++ [k]]> (init_queues_ s).
Proof.
  intros Hm. split.
  - intros Hp. rewrite run_reg_op_effect by exact Hm. simpl.
    unfold op_effect, op_pushes in *.
    destruct (op_keeps_first op && has_creator s (op_key op)); simpl in *;
      [discriminate | reflexivity].
  - change (registerCreator_T k f p s)
      with (run_reg_op (OpCreatorWithInit k f (fun _ => Done) 5) s).
    rewrite run_reg_op_effect by exact Hm. reflexivity.
Qed.

Lemma registration_priority_clamped_witness :
  mutex_ empty_reg = false /\
  (op_pushes empty_reg (OpCreator "A" ok_creator (-5)) = true ->
   init_queues_ (snd (run_reg_op (OpCreator "A" ok_creator (-5)) empty_reg)) =
     <[clamp (op_priority (OpCreator "A" ok_creator (-5))) 0 10 :=
        default [] (init_queues_ empty_reg !!
                      clamp (op_priority (OpCreator "A" ok_creator (-5))) 0 10) ++
        [op_key (OpCreator "A" ok_creator (-5))]]> (init_queues_ empty_reg)) /\
  init_queues_ (snd (registerCreator_T "Foo" ok_creator 99 empty_reg)) =
    <[5%Z := default [] (init_queues_ empty_reg !! 5%Z) ++ ["Foo"]]>
      (init_queues_ empty_reg).
Proof.
  split; [reflexivity|].
  apply (registration_priority_clamped (OpCreator "A" ok_creator (-5)) "Foo"
           ok_creator 99 empty_reg).
  reflexivity.
Defined.

(** ** C10: [hasInstance] reports exactly the cached instances *)

Lemma bind_unit_state {A} (m : M A) (s s' : reg) (r : res unit) :
  (_ ← m; M_ret tt) s = (r, s') -> s' = snd (m s).
Proof.
  unfold mbind, M_mbind, M_bind, M_ret.
  destruct (m s) as [[a|e|] s1]; simpl; intros H; inversion H; reflexivity.
Qed.

Lemma inv_built_extend (s s' : reg) (seg : list event) :
  inv_built s -> mutex_ s' = false -> trace s' = trace s ++ seg ->
  (forall k v, instances_ s' !! k = Some v ->
     instances_ s !! k = Some v \/ In (EvCreator k v true) (trace s')) ->
  inv_built s'.
Proof.
  intros [_ Hb] Hm' Ht Hi. split; [exact Hm'|].
  intros k v Hkv. destruct (Hi k v Hkv) as [Ho|Hn]; [|exact Hn].
  rewrite Ht. apply in_or_app. left. apply Hb. exact Ho.
Qed.

Lemma run_call_inv (c : api_call) (s s' : reg) (r : res unit) :
  inv_built s -> run_call c s = (r, s') -> r <> RDeadlock -> inv_built s'.
Proof.
  intros Hinv Hrun Hr. pose proof Hinv as [Hm Hb].
  destruct c as [op|k|k|k|m|p|]; simpl in Hrun.
  - rewrite run_reg_op_effect in Hrun by exact Hm. inversion Hrun; subst.
    unfold op_effect.
    destruct (op_keeps_first op && has_creator s (op_key op)); [exact Hinv|].
    apply (inv_built_extend s _ (if has_creator s (op_key op) then [EvWarn (op_key op)] else []) Hinv);
      simpl; auto.
  - apply bind_unit_state in Hrun. subst s'. unfold forceInit.
    destruct (lazy_spec k s Hm) as (seg & _ & Hm' & _ & _ & Ht & _ & _ & Hi & _).
    apply (inv_built_extend s _ seg Hinv Hm' Ht).
    intros k' v Hkv. destruct (Hi k' v Hkv) as [Ho|[-> Hn]]; [left; exact Ho|].
    right. rewrite Ht. apply in_or_app. right. exact Hn.
  - unfold getInstance, lazyCreateInstance, with_lock, lock, get_state,
      mbind, M_mbind, M_bind, M_ret in Hrun.
    rewrite Hm in Hrun; simpl in Hrun.
    destruct (instances_ s !! k) eqn:Hk; simpl in Hrun.
    + inversion Hrun; subst.
      assert (Hs : set_mutex false (set_mutex true s) = s)
        by (destruct s; simpl in *; subst; reflexivity).
      rewrite Hs. exact Hinv.
    + inversion Hrun; subst. congruence.
  - unfold hasInstance, with_lock, lock, get_state,
      mbind, M_mbind, M_bind, M_ret in Hrun.
    rewrite Hm in Hrun; simpl in Hrun. inversion Hrun; subst.
    assert (Hs : set_mutex false (set_mutex true s) = s)
      by (destruct s; simpl in *; subst; reflexivity).
    rewrite Hs. exact Hinv.
  - rewrite executePriorInits_eq in Hrun by exact Hm.
    destruct (run_inits_spec (batch_selection m s) 0 s Hm)
      as (_ & Hm' & _ & _ & _ & Hi & _ & _ & segs & Ht & _).
    rewrite Hrun in Hm', Hi, Ht. simpl in Hm', Hi, Ht.
    exact (inv_built_extend s s' (concat segs) Hinv Hm' Ht Hi).
  - rewrite executeInitsAtPriority_eq in Hrun by exact Hm.
    destruct (run_inits_spec (default [] (init_queues_ s !! clamp p 0 10)) 0 s Hm)
      as (_ & Hm' & _ & _ & _ & Hi & _ & _ & segs & Ht & _).
    rewrite Hrun in Hm', Hi, Ht. simpl in Hm', Hi, Ht.
    exact (inv_built_extend s s' (concat segs) Hinv Hm' Ht Hi).
  - unfold clear, with_lock, lock, modify in Hrun.
    rewrite Hm in Hrun; simpl in Hrun. inversion Hrun; subst.
    split; [reflexivity|]. simpl. intros k v Hkv.
    rewrite lookup_empty in Hkv. discriminate.
Qed.

Lemma reachable_inv (s : reg) : reachable s -> inv_built s.
Proof.
  induction 1 as [|s c r s' _ IH Hrun Hr].
  - split; [reflexivity|]. intros k v Hkv. simpl in Hkv.
    rewrite lookup_empty in Hkv. discriminate.
  - exact (run_call_inv c s s' r IH Hrun Hr).
Qed.

(** C10: in every state reachable by API calls, [hasInstance k] returns
    [true] exactly when an instance for [k] is cached, and leaves the
    registry unchanged; a [true] answer is backed by an earlier creator
    call for [k] that returned that instance.  The same holds for
    [hasNamedInstance] on the key [makeFullName class_name instance_name]. *)
Theorem hasInstance_iff_cached (s : reg) (k instance_name class_name : string) :
  reachable s ->
  (exists b, hasInstance k s = (ROk b, s) /\
     (b = true <-> is_Some (instances_ s !! k)) /\
     (b = true -> exists v, instances_ s !! k = Some v /\
                            In (EvCreator k v true) (trace s))) /\
  (exists b, hasNamedInstance instance_name class_name s = (ROk b, s) /\
     (b = true <-> is_Some (instances_ s !! makeFullName class_name instance_name)) /\
     (b = true -> exists v,
        instances_ s !! makeFullName class_name instance_name = Some v /\
        In (EvCreator (makeFullName class_name instance_name) v true) (trace s))).
Proof.
  intros Hreach. destruct (reachable_inv s Hreach) as [Hm Hb].
  assert (Hs : set_mutex false (set_mutex true s) = s)
    by (destruct s; simpl in *; subst; reflexivity).
  split.
  - unfold hasInstance, with_lock, lock, get_state, mbind, M_mbind, M_bind, M_ret.
    rewrite Hm; simpl. rewrite Hs.
    destruct (instances_ s !! k) as [v|] eqn:Hk;
      eexists; (split; [reflexivity|]); simpl.
    + split; [split; [intros _; eexists; reflexivity | reflexivity]|].
      intros _. exists v. split; [reflexivity | apply Hb; exact Hk].
    + split; [split; [discriminate | intros [? ?]; discriminate]|].
      discriminate.
  - unfold hasNamedInstance, with_lock, lock, get_state, mbind, M_mbind, M_bind, M_ret.
    rewrite Hm; simpl. rewrite Hs.
    destruct (instances_ s !! makeFullName class_name instance_name) as [v|] eqn:Hk;
      eexists; (split; [reflexivity|]); simpl.
    + split; [split; [intros _; eexists; reflexivity | reflexivity]|].
      intros _. exists v. split; [reflexivity | apply Hb; exact Hk].
    + split; [split; [discriminate | intros [? ?]; discriminate]|].
      discriminate.
Qed.

Lemma hasInstance_iff_cached_witness :
  reachable reg_A_built /\
  ((exists b, hasInstance "A" reg_A_built = (ROk b, reg_A_built) /\
     (b = true <-> is_Some (instances_ reg_A_built !! "A")) /\
     (b = true -> exists v, instances_ reg_A_built !! "A" = Some v /\
                            In (EvCreator "A" v true) (trace reg_A_built))) /\
   (exists b, hasNamedInstance "x" "C" reg_A_built = (ROk b, reg_A_built) /\
     (b = true <-> is_Some (instances_ reg_A_built !! makeFullName "C" "x")) /\
     (b = true -> exists v,
        instances_ reg_A_built !! makeFullName "C" "x" = Some v /\
        In (EvCreator (makeFullName "C" "x") v true) (trace reg_A_built)))).
Proof.
  assert (H1 : reachable reg_A).
  { apply (reachable_step empty_reg (CallRegister (OpCreator "A" ok_creator 5)) (ROk tt));
      [apply reachable_empty | vm_compute; reflexivity | discriminate]. }
  assert (H2 : reachable reg_A_built).
  { apply (reachable_step reg_A (CallExecutePriorInits 10) (ROk tt));
      [exact H1 | vm_compute; reflexivity | discriminate]. }
  split; [exact H2|].
  apply (hasInstance_iff_cached reg_A_built "A" "x" "C" H2).
Defined.

(** ** Lazy creation: cached keys, missing keys, and what gets cached *)

Lemma set_mutex_lock_unlock (s : reg) :
  mutex_ s = false -> set_mutex false (set_mutex true s) = s.
Proof. intros Hm. destruct s; simpl in *; subst; reflexivity. Qed.

Lemma lazy_cached (k : string) (v : nat) (s : reg) :
  mutex_ s = false -> instances_ s !! k = Some v ->
  lazyCreateInstance k s = (ROk (Some v), s).
Proof.
  intros Hm Hi.
  unfold lazyCreateInstance, mbind, M_mbind, M_bind, with_lock, lock, get_state, M_ret.
  rewrite Hm; simpl. rewrite Hi; simpl. rewrite (set_mutex_lock_unlock s Hm).
  reflexivity.
Qed.

Lemma lazy_missing (k : string) (s : reg) :
  mutex_ s = false -> instances_ s !! k = None -> creators_ s !! k = None ->
  lazyCreateInstance k s = (ROk None, push_event (EvError k) s).
Proof.
  intros Hm Hi Hc.
  unfold lazyCreateInstance, mbind, M_mbind, M_bind, with_lock, lock, get_state, M_ret.
  rewrite Hm; simpl. rewrite Hi; simpl. rewrite Hc; simpl.
  unfold emit, modify, push_event, mbind, M_mbind, M_bind, M_ret; simpl.
  destruct s; simpl in *; subst; reflexivity.
Qed.

(** A lazy creation either leaves the cached instances as they are (and
    then returns an instance only if it was cached), or caches the
    instance it returns, for a key that has a creator. *)
Lemma lazy_instances (k : string) (s : reg) :
  mutex_ s = false ->
  (instances_ (snd (lazyCreateInstance k s)) = instances_ s /\
   forall v, fst (lazyCreateInstance k s) = ROk (Some v) -> instances_ s !! k = Some v) \/
  (exists v, instances_ (snd (lazyCreateInstance k s)) = <[k := v]> (instances_ s) /\
   fst (lazyCreateInstance k s) = ROk (Some v) /\ is_Some (creators_ s !! k)).
Proof.
  intros Hm.
  destruct (instances_ s !! k) as [v|] eqn:Hi.
  { rewrite (lazy_cached k v s Hm Hi). left. split; [reflexivity|].
    intros v' H. simpl in H. congruence. }
  destruct (creators_ s !! k) as [c|] eqn:Hc.
  2:{ rewrite (lazy_missing k s Hm Hi Hc). left. split; [reflexivity|].
      intros v' H. discriminate. }
  unfold lazyCreateInstance, mbind, M_mbind, M_bind, with_lock, lock, get_state, M_ret.
  rewrite Hm; simpl. rewrite Hi; simpl. rewrite Hc; simpl.
  destruct c as [f|name f g|name ctor|name ctor oinit]; simpl;
  unfold call_creator, catch_std, run_creator, run_ctor, run_init, emit, modify, M_ret,
    client_step, push_event, mbind, M_mbind, M_bind; simpl.
  - destruct (f (tick s)) as [[|]| |]; simpl;
      solve [ left; split; [reflexivity | intros; discriminate]
            | right; eexists; split; [reflexivity | split; [reflexivity | eexists; reflexivity]] ].
  - destruct (f (tick s)) as [[|]| |]; simpl;
      [destruct (g (S (tick s))); simpl | ..];
      solve [ left; split; [reflexivity | intros; discriminate]
            | right; eexists; split; [reflexivity | split; [reflexivity | eexists; reflexivity]] ].
  - destruct (ctor (tick s)); simpl;
      solve [ left; split; [reflexivity | intros; discriminate]
            | right; eexists; split; [reflexivity | split; [reflexivity | eexists; reflexivity]] ].
  - destruct (ctor (tick s)); simpl;
      [destruct oinit as [g|]; simpl; [destruct (g (S (tick s))); simpl|] | ..];
      solve [ left; split; [reflexivity | intros; discriminate]
            | right; eexists; split; [reflexivity | split; [reflexivity | eexists; reflexivity]] ].
Qed.

Lemma lazy_mutex (k : string) (s : reg) :
  mutex_ s = false -> mutex_ (snd (lazyCreateInstance k s)) = false.
Proof.
  intros Hm. destruct (lazy_spec k s Hm) as (seg & _ & Hm' & _). exact Hm'.
Qed.

(** Lazy creation of a key that has neither a cached instance nor a
    creator: it returns null and logs one error for the key; nothing else
    changes and no client code runs. *)
Theorem lookup_unregistered_key (instance_name class_name k : string) (s : reg) :
  mutex_ s = false -> instances_ s !! k = None -> creators_ s !! k = None ->
  forceInit k s = (ROk None, push_event (EvError k) s) /\
  (k = makeFullName class_name instance_name ->
   forceInitNamed instance_name class_name s = (ROk None, push_event (EvError k) s)).
Proof.
  intros Hm Hi Hc. split.
  - apply lazy_missing; assumption.
  - intros ->. apply lazy_missing; assumption.
Qed.

Lemma lookup_unregistered_key_witness :
  (mutex_ reg_A = false /\ instances_ reg_A !! makeFullName "Db" "main" = None /\
   creators_ reg_A !! makeFullName "Db" "main" = None) /\
  (forceInit (makeFullName "Db" "main") reg_A =
     (ROk None, push_event (EvError (makeFullName "Db" "main")) reg_A) /\
   (makeFullName "Db" "main" = makeFullName "Db" "main" ->
    forceInitNamed "main" "Db" reg_A =
      (ROk None, push_event (EvError (makeFullName "Db" "main")) reg_A))).
Proof.
  split; [refine (conj _ (conj _ _)); vm_compute; reflexivity|].
  apply (lookup_unregistered_key "main" "Db" (makeFullName "Db" "main") reg_A);
    vm_compute; reflexivity.
Defined.

(** A lookup of a key whose instance is cached, by [forceInit],
    [getInstance], [forceInitNamed] or [getInstanceByName], returns the
    cached instance and leaves the registry exactly as it was: no creator
    or initializer runs and nothing is logged. *)
Theorem lookup_cached_key (instance_name class_name k : string) (v : nat) (s : reg) :
  mutex_ s = false -> instances_ s !! k = Some v ->
  forceInit k s = (ROk (Some v), s) /\
  getInstance k s = (ROk (Some v), s) /\
  (k = makeFullName class_name instance_name ->
   forceInitNamed instance_name class_name s = (ROk (Some v), s) /\
   getInstanceByName instance_name class_name s = (ROk (Some v), s)).
Proof.
  intros Hm Hi.
  assert (Hg : forall k', instances_ s !! k' = Some v ->
     with_lock (s0 ← get_state;
                match instances_ s0 !! k' with
                | Some v0 => M_ret (Some v0)
                | None => lazyCreateInstance k'
                end) s = (ROk (Some v), s)).
  { intros k' Hk'. unfold with_lock, lock, get_state, mbind, M_mbind, M_bind, M_ret.
    rewrite Hm; simpl. rewrite Hk'. rewrite (set_mutex_lock_unlock s Hm). reflexivity. }
  refine (conj _ (conj _ _)).
  - apply lazy_cached; assumption.
  - apply (Hg k Hi).
  - intros ->. split.
    + apply lazy_cached; assumption.
    + apply (Hg _ Hi).
Qed.

Lemma lookup_cached_key_witness :
  (mutex_ reg_A_built = false /\ instances_ reg_A_built !! "A" = Some 0) /\
  (forceInit "A" reg_A_built = (ROk (Some 0), reg_A_built) /\
   getInstance "A" reg_A_built = (ROk (Some 0), reg_A_built) /\
   ("A" = makeFullName "C" "x" ->
    forceInitNamed "x" "C" reg_A_built = (ROk (Some 0), reg_A_built) /\
    getInstanceByName "x" "C" reg_A_built = (ROk (Some 0), reg_A_built))).
Proof.
  split; [split; vm_compute; reflexivity|].
  apply (lookup_cached_key "x" "C" "A" 0 reg_A_built); vm_compute; reflexivity.
Defined.

(** [forceInit] caches what it returns: after it returns an instance [v],
    [v] is the cached instance of the key and a second [forceInit] returns
    [v] again without running any client code or changing anything;
    after it returns null, the cached instances are exactly the ones
    before the call. *)
Theorem forceInit_result_cached (k : string) (s : reg) :
  mutex_ s = false ->
  let s' := snd (forceInit k s) in
  (forall v, fst (forceInit k s) = ROk (Some v) ->
     instances_ s' !! k = Some v /\ forceInit k s' = (ROk (Some v), s')) /\
  (fst (forceInit k s) = ROk None -> instances_ s' = instances_ s).
Proof.
  intros Hm s'. unfold forceInit in *.
  pose proof (lazy_mutex k s Hm) as Hm'.
  assert (Hc : forall v, fst (lazyCreateInstance k s) = ROk (Some v) ->
                         instances_ s' !! k = Some v).
  { intros v Hv. destruct (lazy_instances k s Hm) as [[Heq Hold]|(v' & Heq & Hr & _)].
    - unfold s'. rewrite Heq. apply Hold, Hv.
    - unfold s'. rewrite Heq. rewrite Hv in Hr. injection Hr as ->.
      apply lookup_insert_eq. }
  split.
  - intros v Hv. split; [apply Hc, Hv|]. apply lazy_cached; [exact Hm' | apply Hc, Hv].
  - intros Hn. destruct (lazy_instances k s Hm) as [[Heq _]|(v' & _ & Hr & _)];
      [exact Heq | congruence].
Qed.

Lemma forceInit_result_cached_witness :
  mutex_ reg_A = false /\
  (let s' := snd (forceInit "A" reg_A) in
   (forall v, fst (forceInit "A" reg_A) = ROk (Some v) ->
      instances_ s' !! "A" = Some v /\ forceInit "A" s' = (ROk (Some v), s')) /\
   (fst (forceInit "A" reg_A) = ROk None -> instances_ s' = instances_ reg_A)).
Proof.
  split; [reflexivity|]. apply (forceInit_result_cached "A" reg_A). reflexivity.
Defined.

Lemma getInstance_cached (k : string) (v : nat) (s : reg) :
  mutex_ s = false -> instances_ s !! k = Some v ->
  getInstance k s = (ROk (Some v), s).
Proof.
  intros Hm Hi. unfold getInstance, with_lock, lock, get_state, mbind, M_mbind, M_bind, M_ret.
  rewrite Hm; simpl. rewrite Hi. rewrite (set_mutex_lock_unlock s Hm). reflexivity.
Qed.

Lemma op_effect_mutex (op : reg_op) (s : reg) : mutex_ (op_effect s op) = mutex_ s.
Proof. unfold op_effect. destruct (_ && _); reflexivity. Qed.

Lemma op_effect_instances (op : reg_op) (s : reg) :
  instances_ (op_effect s op) = instances_ s.
Proof. unfold op_effect. destruct (_ && _); reflexivity. Qed.

(** No registration method touches the cached instances: after any
    registration, also one that replaces the creator of [k], a lookup of a
    cached key [k] still returns the instance built before, without
    calling the new creator. *)
Theorem registration_keeps_cached_instances (op : reg_op) (k : string) (v : nat)
    (s : reg) :
  mutex_ s = false -> instances_ s !! k = Some v ->
  let s' := snd (run_reg_op op s) in
  instances_ s' = instances_ s /\
  forceInit k s' = (ROk (Some v), s') /\
  getInstance k s' = (ROk (Some v), s').
Proof.
  intros Hm Hi s'. unfold s'. rewrite run_reg_op_effect by exact Hm. simpl.
  assert (Hm' : mutex_ (op_effect s op) = false) by (rewrite op_effect_mutex; exact Hm).
  assert (Hi' : instances_ (op_effect s op) !! k = Some v)
    by (rewrite op_effect_instances; exact Hi).
  refine (conj (op_effect_instances op s) (conj _ _)).
  - apply lazy_cached; assumption.
  - apply getInstance_cached; assumption.
Qed.

Lemma registration_keeps_cached_instances_witness :
  (mutex_ reg_A_built = false /\ instances_ reg_A_built !! "A" = Some 0) /\
  (let s' := snd (run_reg_op (OpCreator "A" null_creator 5) reg_A_built) in
   instances_ s' = instances_ reg_A_built /\
   forceInit "A" s' = (ROk (Some 0), s') /\
   getInstance "A" s' = (ROk (Some 0), s')).
Proof.
  split; [split; vm_compute; reflexivity|].
  apply (registration_keeps_cached_instances (OpCreator "A" null_creator 5) "A" 0
           reg_A_built); vm_compute; reflexivity.
Defined.

Lemma run_reg_ops_dom (ops : list reg_op) :
  forall s, mutex_ s = false ->
  dom (creators_ (fst (run_reg_ops ops s))) =
  dom (creators_ s) ∪ list_to_set (map op_key ops).
Proof.
  induction ops as [|op rest IH]; intros s Hm; simpl.
  - set_solver.
  - rewrite run_reg_op_effect by exact Hm. simpl.
    rewrite IH by (rewrite op_effect_mutex; exact Hm).
    unfold op_effect.
    destruct (op_keeps_first op && has_creator s (op_key op)) eqn:E; simpl.
    + apply andb_true_iff in E as [_ E]. unfold has_creator in E.
      destruct (creators_ s !! op_key op) eqn:Ek; [|discriminate].
      assert (op_key op ∈ dom (creators_ s)) by (apply elem_of_dom; eauto).
      set_solver.
    + rewrite dom_insert_L. set_solver.
Qed.

(** After any sequence of registrations on a fresh registry,
    [getRegisteredCount] returns the number of distinct keys registered
    (named registrations counted by their [class#instance] key), whichever
    registration family was used for each. *)
Theorem registered_count_distinct_keys (ops : list reg_op) :
  let s := fst (run_reg_ops ops empty_reg) in
  getRegisteredCount s = (ROk (size (list_to_set (map op_key ops) : gset string)), s).
Proof.
  intros s.
  destruct (run_reg_ops_queues ops empty_reg eq_refl) as (Hm & _ & _).
  fold s in Hm.
  unfold getRegisteredCount, with_lock, lock, get_state, mbind, M_mbind, M_bind, M_ret.
  rewrite Hm; simpl. rewrite (set_mutex_lock_unlock s Hm).
  rewrite <- (size_dom (creators_ s)). unfold s.
  rewrite (run_reg_ops_dom ops empty_reg eq_refl). simpl.
  rewrite dom_empty_L, union_empty_l_L. reflexivity.
Qed.

(** ** Batches over built entries, [clear], and [executeInitsAtPriority] *)

Lemma batch_item_cached (i : nat) (k : string) (v : nat) (s : reg) :
  mutex_ s = false -> instances_ s !! k = Some v -> batch_item i k s = (ROk tt, s).
Proof.
  intros Hm Hi. unfold batch_item, catch_all, mbind, M_mbind, M_bind, M_ret.
  rewrite (lazy_cached k v s Hm Hi). reflexivity.
Qed.

Lemma run_inits_all_cached (keys : list string) :
  forall i s, mutex_ s = false ->
  (forall k, k ∈ keys -> is_Some (instances_ s !! k)) ->
  run_inits i keys s = (ROk tt, s).
Proof.
  induction keys as [|k rest IH]; intros i s Hm Hc; [reflexivity|].
  rewrite run_inits_unfold. unfold mbind, M_mbind, M_bind.
  destruct (Hc k ltac:(set_solver)) as [v Hv].
  rewrite (batch_item_cached i k v s Hm Hv).
  apply IH; [exact Hm|]. intros k' Hk'. apply Hc. set_solver.
Qed.

(** A batch whose selected entries are all built already calls no
    creator or initializer, writes no diagnostic to [std::cerr] and leaves
    the registry unchanged (the model does not record the progress lines
    it prints to [std::cout]); this holds for
    [executePriorInits m] (so for [executeAllInits]) and for
    [executeInitsAtPriority p]. *)
Theorem batch_over_built_entries_noop (m p : Z) (s : reg) :
  mutex_ s = false ->
  ((forall k, k ∈ batch_selection m s -> is_Some (instances_ s !! k)) ->
   executePriorInits m s = (ROk tt, s)) /\
  ((forall k, k ∈ default [] (init_queues_ s !! clamp p 0 10) ->
      is_Some (instances_ s !! k)) ->
   executeInitsAtPriority p s = (ROk tt, s)).
Proof.
  intros Hm. split; intros Hc.
  - rewrite executePriorInits_eq by exact Hm. apply run_inits_all_cached; assumption.
  - rewrite executeInitsAtPriority_eq by exact Hm. apply run_inits_all_cached; assumption.
Qed.

Lemma batch_over_built_entries_noop_witness :
  mutex_ reg_A_built = false /\
  ((forall k, k ∈ batch_selection 10 reg_A_built -> is_Some (instances_ reg_A_built !! k)) ->
   executePriorInits 10 reg_A_built = (ROk tt, reg_A_built)) /\
  ((forall k, k ∈ default [] (init_queues_ reg_A_built !! clamp 7 0 10) ->
      is_Some (instances_ reg_A_built !! k)) ->
   executeInitsAtPriority 7 reg_A_built = (ROk tt, reg_A_built)).
Proof.
  split; [vm_compute; reflexivity|].
  apply (batch_over_built_entries_noop 10 7 reg_A_built). vm_compute; reflexivity.
Defined.

Lemma collect_from_empty (p : Z) (n : nat) : collect_from ∅ p n = [].
Proof.
  revert p; induction n as [|n IH]; intros p; simpl; [reflexivity|].
  rewrite lookup_empty. simpl. apply IH.
Qed.

(** [clear] empties the registry but keeps it usable: afterwards both
    counts are 0, no key has an instance, a lookup of any key returns null
    with an error (no creator is left), and a batch at any bound runs
    nothing. *)
Theorem clear_empties_registry (s : reg) :
  mutex_ s = false ->
  let s' := snd (clear s) in
  fst (clear s) = ROk tt /\
  trace s' = trace s /\
  getRegisteredCount s' = (ROk 0, s') /\
  getInstanceCount s' = (ROk 0, s') /\
  (forall k, hasInstance k s' = (ROk false, s')) /\
  (forall k, forceInit k s' = (ROk None, push_event (EvError k) s')) /\
  (forall m, executePriorInits m s' = (ROk tt, s')) /\
  (forall p, executeInitsAtPriority p s' = (ROk tt, s')).
Proof.
  intros Hm s'.
  assert (Hs' : clear s = (ROk tt, mkReg false ∅ ∅ ∅ (tick s) (trace s))).
  { unfold clear, with_lock, lock, modify. rewrite Hm. reflexivity. }
  unfold s'. rewrite Hs'. simpl.
  set (e := mkReg false ∅ ∅ ∅ (tick s) (trace s)).
  assert (He : mutex_ e = false) by reflexivity.
  refine (conj eq_refl (conj eq_refl (conj _ (conj _ (conj _ (conj _ (conj _ _))))))).
  - reflexivity.
  - reflexivity.
  - intros k. reflexivity.
  - intros k. apply lazy_missing; [exact He | apply lookup_empty | apply lookup_empty].
  - intros m. rewrite executePriorInits_eq by exact He.
    unfold batch_selection. simpl. rewrite collect_from_empty. reflexivity.
  - intros p. rewrite executeInitsAtPriority_eq by exact He. reflexivity.
Qed.

Lemma clear_empties_registry_witness :
  mutex_ reg_A_built = false /\
  (let s' := snd (clear reg_A_built) in
   fst (clear reg_A_built) = ROk tt /\
   trace s' = trace reg_A_built /\
   getRegisteredCount s' = (ROk 0, s') /\
   getInstanceCount s' = (ROk 0, s') /\
   (forall k, hasInstance k s' = (ROk false, s')) /\
   (forall k, forceInit k s' = (ROk None, push_event (EvError k) s')) /\
   (forall m, executePriorInits m s' = (ROk tt, s')) /\
   (forall p, executeInitsAtPriority p s' = (ROk tt, s'))).
Proof.
  split; [vm_compute; reflexivity|]. apply (clear_empties_registry reg_A_built).
  vm_compute; reflexivity.
Defined.

(** After any sequence of registrations on a fresh registry,
    [executeInitsAtPriority p] runs, one after the other, exactly the
    registrations pushed at the clamped priority [clamp p 0 10], in push
    order (so a negative [p] runs priority 0 and a [p] above 10 runs
    priority 10). *)
Theorem executeInitsAtPriority_selection (ops : list reg_op) (p : Z) :
  let s := fst (run_reg_ops ops empty_reg) in
  let regs := snd (run_reg_ops ops empty_reg) in
  executeInitsAtPriority p s =
  run_inits 0 (map fst (filter (fun r => r.2 = clamp p 0 10) regs)) s.
Proof.
  intros s regs.
  destruct (run_reg_ops_queues ops empty_reg eq_refl) as (Hm & Hq & _).
  fold s regs in Hm, Hq.
  rewrite executeInitsAtPriority_eq by exact Hm.
  rewrite Hq. reflexivity.
Qed.

(** [getInstanceByName] holds the registry mutex and calls
    [lazyCreateNamedInstance], which locks it again: for a named key with
    no cached instance the call blocks forever before any creator runs. *)
Theorem getInstanceByName_uncached_blocks (instance_name class_name : string) (s : reg) :
  mutex_ s = false -> instances_ s !! makeFullName class_name instance_name = None ->
  fst (getInstanceByName instance_name class_name s) = RDeadlock /\
  trace (snd (getInstanceByName instance_name class_name s)) = trace s.
Proof.
  intros Hm Hi.
  unfold getInstanceByName, lazyCreateNamedInstance, lazyCreateInstance, with_lock, lock,
    get_state, mbind, M_mbind, M_bind, M_ret.
  rewrite Hm; simpl. rewrite Hi; simpl. split; reflexivity.
Qed.

Lemma getInstanceByName_uncached_blocks_witness :
  (mutex_ reg_Named = false /\ instances_ reg_Named !! makeFullName "Db" "main" = None) /\
  fst (getInstanceByName "main" "Db" reg_Named) = RDeadlock /\
  trace (snd (getInstanceByName "main" "Db" reg_Named)) = trace reg_Named.
Proof.
  split; [split; vm_compute; reflexivity|].
  apply getInstanceByName_uncached_blocks; vm_compute; reflexivity.
Defined.

(** ** Invariants of the reachable states *)

Lemma batch_item_state (i : nat) (k : string) (s : reg) :
  instances_ (snd (batch_item i k s)) = instances_ (snd (lazyCreateInstance k s)) /\
  creators_ (snd (batch_item i k s)) = creators_ (snd (lazyCreateInstance k s)).
Proof.
  unfold batch_item, catch_all, mbind, M_mbind, M_bind, M_ret.
  destruct (lazyCreateInstance k s) as [[a|e|] s0]; simpl; auto.
Qed.

Lemma lazy_cached_registered (k : string) (s : reg) :
  mutex_ s = false -> cached_registered s ->
  cached_registered (snd (lazyCreateInstance k s)).
Proof.
  intros Hm Hcr k' Hk'.
  destruct (lazy_spec k s Hm) as (seg & _ & _ & Hc & _).
  rewrite Hc.
  destruct (lazy_instances k s Hm) as [[Heq _]|(v & Heq & _ & Hck)].
  - apply Hcr. rewrite <- Heq. exact Hk'.
  - rewrite Heq in Hk'. destruct (decide (k' = k)) as [->|Hne]; [exact Hck|].
    apply Hcr. rewrite lookup_insert_ne in Hk' by congruence. exact Hk'.
Qed.

Lemma run_inits_cached_registered (keys : list string) :
  forall i s, mutex_ s = false -> cached_registered s ->
  cached_registered (snd (run_inits i keys s)).
Proof.
  induction keys as [|k rest IH]; intros i s Hm Hcr; [exact Hcr|].
  rewrite run_inits_unfold.
  destruct (batch_item_spec i k s Hm) as [Hr [seg (Hm1 & _)]].
  pose proof (batch_item_state i k s) as [Hi1 Hc1].
  pose proof (lazy_cached_registered k s Hm Hcr) as Hl.
  unfold mbind, M_mbind, M_bind.
  destruct (batch_item i k s) as [r1 s1] eqn:E; simpl in Hr, Hm1, Hi1, Hc1; subst r1.
  apply IH; [exact Hm1|].
  intros k' Hk'. rewrite Hc1. apply Hl. rewrite <- Hi1. exact Hk'.
Qed.

Lemma op_effect_queued_inv (op : reg_op) (s : reg) :
  queued_inv s -> queued_inv (op_effect s op).
Proof.
  intros [Hq1 Hq2]. unfold op_effect.
  destruct (op_keeps_first op && has_creator s (op_key op)); [split; assumption|].
  pose proof (clamp_range (op_priority op)) as Hc.
  set (p := clamp (op_priority op) 0 10) in *.
  set (k := op_key op). unfold queued_inv; cbn [init_queues_ creators_]. split.
  - intros k' Hk'. destruct (decide (k' = k)) as [->|Hne].
    + exists p. split; [exact Hc|]. rewrite lookup_insert_eq. simpl. set_solver.
    + rewrite lookup_insert_ne in Hk' by congruence.
      destruct (Hq1 k' Hk') as (p' & Hp' & Hin). exists p'. split; [exact Hp'|].
      destruct (decide (p' = p)) as [->|Hpne].
      * rewrite lookup_insert_eq. simpl. set_solver.
      * rewrite lookup_insert_ne by congruence. exact Hin.
  - intros p' k' Hin. destruct (decide (p' = p)) as [->|Hpne].
    + rewrite lookup_insert_eq in Hin. simpl in Hin.
      apply elem_of_app in Hin as [Hin|Hin].
      * split; [exact Hc|]. destruct (decide (k' = k)) as [->|Hne];
          [rewrite lookup_insert_eq; eauto|].
        rewrite lookup_insert_ne by congruence. apply (Hq2 p k' Hin).
      * apply list_elem_of_singleton in Hin. subst k'.
        split; [exact Hc | rewrite lookup_insert_eq; eauto].
    + rewrite lookup_insert_ne in Hin by congruence.
      destruct (Hq2 p' k' Hin) as [Hp' Hk']. split; [exact Hp'|].
      destruct (decide (k' = k)) as [->|Hne]; [rewrite lookup_insert_eq; eauto|].
      rewrite lookup_insert_ne by congruence. exact Hk'.
Qed.

Lemma run_call_reg_inv (c : api_call) (s s' : reg) (r : res unit) :
  mutex_ s = false -> queued_inv s -> cached_registered s ->
  run_call c s = (r, s') -> r <> RDeadlock ->
  mutex_ s' = false /\ queued_inv s' /\ cached_registered s'.
Proof.
  intros Hm Hq Hcr Hrun Hr.
  destruct c as [op|k|k|k|m|p|]; simpl in Hrun.
  - rewrite run_reg_op_effect in Hrun by exact Hm. inversion Hrun; subst.
    split; [rewrite op_effect_mutex; exact Hm|]. split; [apply op_effect_queued_inv, Hq|].
    intros k' Hk'. rewrite op_effect_instances in Hk'.
    destruct (Hcr k' Hk') as [c Hc]. unfold op_effect.
    destruct (op_keeps_first op && has_creator s (op_key op)); [eauto|]. simpl.
    destruct (decide (k' = op_key op)) as [->|Hne]; [rewrite lookup_insert_eq; eauto|].
    rewrite lookup_insert_ne by congruence. eauto.
  - apply bind_unit_state in Hrun. subst s'. unfold forceInit.
    destruct (lazy_spec k s Hm) as (seg & _ & Hm' & Hc' & Hq' & _).
    split; [exact Hm'|]. split; [unfold queued_inv; rewrite Hc', Hq'; exact Hq|].
    apply lazy_cached_registered; assumption.
  - unfold getInstance, lazyCreateInstance, with_lock, lock, get_state,
      mbind, M_mbind, M_bind, M_ret in Hrun.
    rewrite Hm in Hrun; simpl in Hrun.
    destruct (instances_ s !! k) eqn:Hk; simpl in Hrun.
    + inversion Hrun; subst. rewrite (set_mutex_lock_unlock s Hm). auto.
    + inversion Hrun; subst. congruence.
  - unfold hasInstance, with_lock, lock, get_state,
      mbind, M_mbind, M_bind, M_ret in Hrun.
    rewrite Hm in Hrun; simpl in Hrun. inversion Hrun; subst.
    rewrite (set_mutex_lock_unlock s Hm). auto.
  - rewrite executePriorInits_eq in Hrun by exact Hm.
    destruct (run_inits_spec (batch_selection m s) 0 s Hm)
      as (_ & Hm' & Hc' & Hq' & _).
    pose proof (run_inits_cached_registered (batch_selection m s) 0 s Hm Hcr) as Hcr'.
    rewrite Hrun in Hm', Hc', Hq', Hcr'. simpl in Hm', Hc', Hq', Hcr'.
    split; [exact Hm'|]. split; [unfold queued_inv; rewrite Hc', Hq'; exact Hq | exact Hcr'].
  - rewrite executeInitsAtPriority_eq in Hrun by exact Hm.
    set (ks := default [] (init_queues_ s !! clamp p 0 10)) in Hrun.
    destruct (run_inits_spec ks 0 s Hm) as (_ & Hm' & Hc' & Hq' & _).
    pose proof (run_inits_cached_registered ks 0 s Hm Hcr) as Hcr'.
    rewrite Hrun in Hm', Hc', Hq', Hcr'. simpl in Hm', Hc', Hq', Hcr'.
    split; [exact Hm'|]. split; [unfold queued_inv; rewrite Hc', Hq'; exact Hq | exact Hcr'].
  - unfold clear, with_lock, lock, modify in Hrun.
    rewrite Hm in Hrun; simpl in Hrun. inversion Hrun; subst.
    split; [reflexivity|]. split; [split|].
    + intros k [c Hc]. simpl in Hc. rewrite lookup_empty in Hc. discriminate.
    + intros p k Hin. simpl in Hin. rewrite lookup_empty in Hin. simpl in Hin.
      apply elem_of_nil in Hin. contradiction.
    + intros k [v Hv]. simpl in Hv. rewrite lookup_empty in Hv. discriminate.
Qed.

Lemma reachable_reg_inv (s : reg) :
  reachable s -> mutex_ s = false /\ queued_inv s /\ cached_registered s.
Proof.
  induction 1 as [|s c r s' _ IH Hrun Hr].
  - split; [reflexivity|]. split; [split|].
    + intros k [c Hc]. simpl in Hc. rewrite lookup_empty in Hc. discriminate.
    + intros p k Hin. simpl in Hin. rewrite lookup_empty in Hin. simpl in Hin.
      apply elem_of_nil in Hin. contradiction.
    + intros k [v Hv]. simpl in Hv. rewrite lookup_empty in Hv. discriminate.
  - destruct IH as (Hm & Hq & Hcr). exact (run_call_reg_inv c s s' r Hm Hq Hcr Hrun Hr).
Qed.

Lemma elem_of_collect_from (Q : gmap Z (list string)) (k : string) (n : nat) :
  forall p0 p, (p0 <= p < p0 + Z.of_nat n)%Z -> k ∈ default [] (Q !! p) ->
  k ∈ collect_from Q p0 n.
Proof.
  induction n as [|n IH]; intros p0 p Hp Hin; simpl; [lia|].
  apply elem_of_app. destruct (decide (p = p0)) as [->|Hne]; [left; exact Hin|].
  right. apply (IH (p0 + 1)%Z p); [lia | exact Hin].
Qed.

Lemma collect_from_elem (Q : gmap Z (list string)) (k : string) (n : nat) :
  forall p0, k ∈ collect_from Q p0 n -> exists p, k ∈ default [] (Q !! p).
Proof.
  induction n as [|n IH]; intros p0 Hin; simpl in Hin.
  - apply elem_of_nil in Hin. contradiction.
  - apply elem_of_app in Hin as [Hin|Hin]; [exists p0; exact Hin | exact (IH _ Hin)].
Qed.

(** In every state reachable by API calls, the registry keeps three
    invariants between calls: the mutex is free; every key with a creator
    is queued at a priority in [0, 10], and every queued key has a
    creator (so a batch closure never meets a missing creator); and every
    cached instance belongs to a key that has a creator. *)
Theorem reachable_registry_invariants (s : reg) :
  reachable s ->
  mutex_ s = false /\
  (forall k, is_Some (creators_ s !! k) ->
     exists p, (0 <= p <= 10)%Z /\ k ∈ default [] (init_queues_ s !! p)) /\
  (forall p k, k ∈ default [] (init_queues_ s !! p) ->
     (0 <= p <= 10)%Z /\ is_Some (creators_ s !! k)) /\
  (forall k, is_Some (instances_ s !! k) -> is_Some (creators_ s !! k)).
Proof.
  intros Hr. destruct (reachable_reg_inv s Hr) as (Hm & [Hq1 Hq2] & Hcr).
  auto.
Qed.

Lemma reachable_reg_A : reachable reg_A.
Proof.
  apply (reachable_step empty_reg (CallRegister (OpCreator "A" ok_creator 5)) (ROk tt));
    [apply reachable_empty | vm_compute; reflexivity | discriminate].
Qed.

Lemma reachable_registry_invariants_witness :
  reachable reg_A /\
  (mutex_ reg_A = false /\
   (forall k, is_Some (creators_ reg_A !! k) ->
      exists p, (0 <= p <= 10)%Z /\ k ∈ default [] (init_queues_ reg_A !! p)) /\
   (forall p k, k ∈ default [] (init_queues_ reg_A !! p) ->
      (0 <= p <= 10)%Z /\ is_Some (creators_ reg_A !! k)) /\
   (forall k, is_Some (instances_ reg_A !! k) -> is_Some (creators_ reg_A !! k))).
Proof.
  split; [exact reachable_reg_A|].
  apply (reachable_registry_invariants reg_A reachable_reg_A).
Defined.

(** In a reachable state whose stored creators all succeed,
    [executeAllInits] returns normally and afterwards a key has a cached
    instance exactly when it has a creator, so [getInstanceCount] equals
    [getRegisteredCount]; a second [executeAllInits] then changes
    nothing. *)
Theorem executeAllInits_builds_every_entry (s : reg) :
  reachable s ->
  (forall k c, creators_ s !! k = Some c -> good_creator c) ->
  let s' := snd (executeAllInits s) in
  fst (executeAllInits s) = ROk tt /\
  (forall k, is_Some (instances_ s' !! k) <-> is_Some (creators_ s' !! k)) /\
  fst (getInstanceCount s') = fst (getRegisteredCount s') /\
  executeAllInits s' = (ROk tt, s').
Proof.
  intros Hreach Hgoodall s'.
  destruct (reachable_reg_inv s Hreach) as (Hm & [Hq1 Hq2] & Hcr).
  unfold s', executeAllInits in *. rewrite executePriorInits_eq by exact Hm.
  set (keys := batch_selection 10 s).
  destruct (run_inits_spec keys 0 s Hm) as (Hr & Hm' & Hc' & Hq' & _ & _ & Hgood & _).
  pose proof (run_inits_cached_registered keys 0 s Hm Hcr) as Hcr'.
  set (s1 := snd (run_inits 0 keys s)) in *.
  assert (Hkeys : keys = collect_from (init_queues_ s) 0 11) by reflexivity.
  assert (Hall : forall k, is_Some (creators_ s1 !! k) -> is_Some (instances_ s1 !! k)).
  { intros k Hk. rewrite Hc' in Hk. destruct Hk as [c Hc].
    destruct (Hq1 k (ex_intro _ c Hc)) as (p & Hp & Hin).
    apply (Hgood k c); [| exact Hc | apply (Hgoodall k c Hc)].
    apply list_elem_of_In. rewrite Hkeys.
    apply (elem_of_collect_from _ k 11 0 p); [lia | exact Hin]. }
  refine (conj Hr (conj _ (conj _ _))).
  - intros k. split; [apply Hcr' | apply Hall].
  - unfold getInstanceCount, getRegisteredCount, with_lock, lock, get_state,
      mbind, M_mbind, M_bind, M_ret.
    rewrite Hm'. simpl. f_equal.
    rewrite <- (size_dom (instances_ s1)), <- (size_dom (creators_ s1)). f_equal.
    apply leibniz_equiv, set_equiv. intros k. rewrite !elem_of_dom.
    split; [apply Hcr' | apply Hall].
  - rewrite executePriorInits_eq by exact Hm'.
    apply run_inits_all_cached; [exact Hm'|].
    intros k Hk. apply Hall. rewrite Hc'.
    unfold batch_selection in Hk. rewrite Hq' in Hk.
    destruct (collect_from_elem _ k _ 0 Hk) as [p Hin].
    apply (Hq2 p k Hin).
Qed.

Lemma executeAllInits_builds_every_entry_witness :
  (reachable reg_A /\ (forall k c, creators_ reg_A !! k = Some c -> good_creator c)) /\
  (let s' := snd (executeAllInits reg_A) in
   fst (executeAllInits reg_A) = ROk tt /\
   (forall k, is_Some (instances_ s' !! k) <-> is_Some (creators_ s' !! k)) /\
   fst (getInstanceCount s') = fst (getRegisteredCount s') /\
   executeAllInits s' = (ROk tt, s')).
Proof.
  assert (Hg : forall k c, creators_ reg_A !! k = Some c -> good_creator c).
  { assert (Hc : creators_ reg_A = <["A" := CPlain ok_creator]> ∅)
      by (vm_compute; reflexivity).
    intros k c H. rewrite Hc in H. apply lookup_insert_Some in H as [[_ <-]|[_ H]].
    - simpl. intros t. reflexivity.
    - rewrite lookup_empty in H. discriminate. }
  split; [split; [exact reachable_reg_A | exact Hg]|].
  apply (executeAllInits_builds_every_entry reg_A reachable_reg_A Hg).
Defined.

(** ** Named keys *)

Lemma string_app_assoc (a b c : string) : (a +:+ b) +:+ c = a +:+ (b +:+ c).
Proof. induction a as [|x a IH]; [reflexivity | exact (f_equal (String x) IH)]. Qed.

(** [makeFullName] joins with ["#"], so two different (class, instance)
    pairs can share one key: registering [("a#b", "c")] and then
    [("a", "b#c")] with [registerNamedCreator] installs a single entry,
    the second registration warns about an existing creator for that key
    and replaces the first creator. *)
Theorem named_keys_collide (a b c : string) (f g : creator_fn) (p q : Z) (s : reg) :
  mutex_ s = false ->
  let key := makeFullName a (b +:+ "#" +:+ c) in
  let s2 := snd (registerNamedCreator a (b +:+ "#" +:+ c) g q
                   (snd (registerNamedCreator (a +:+ "#" +:+ b) c f p s))) in
  makeFullName (a +:+ "#" +:+ b) c = key /\
  creators_ s2 !! key = Some (CPlain g) /\
  last (trace s2) = Some (EvWarn key).
Proof.
  intros Hm key s2.
  assert (Hkey : makeFullName (a +:+ "#" +:+ b) c = key).
  { unfold key, makeFullName. rewrite !string_app_assoc. reflexivity. }
  split; [exact Hkey|].
  unfold s2.
  change (registerNamedCreator (a +:+ "#" +:+ b) c f p s)
    with (run_reg_op (OpNamedCreator (a +:+ "#" +:+ b) c f p) s).
  rewrite run_reg_op_effect by exact Hm. simpl.
  change (registerNamedCreator a (b +:+ "#" +:+ c) g q
            (op_effect s (OpNamedCreator (a +:+ "#" +:+ b) c f p)))
    with (run_reg_op (OpNamedCreator a (b +:+ "#" +:+ c) g q)
            (op_effect s (OpNamedCreator (a +:+ "#" +:+ b) c f p))).
  rewrite run_reg_op_effect by (rewrite op_effect_mutex; exact Hm). simpl.
  unfold op_effect at 1. simpl. fold key. rewrite Hkey.
  assert (Hh : has_creator
     (mkReg (mutex_ s) (<[key:=CPlain f]> (creators_ s)) (instances_ s)
        (<[clamp p 0 10 := default [] (init_queues_ s !! clamp p 0 10) ++ [key]]>
           (init_queues_ s)) (tick s)
        (trace s ++ (if has_creator s key then [EvWarn key] else []))) key = true).
  { unfold has_creator. simpl. rewrite lookup_insert_eq. reflexivity. }
  rewrite Hh. simpl. split.
  - apply lookup_insert_eq.
  - rewrite last_app. reflexivity.
Qed.

Lemma named_keys_collide_witness :
  mutex_ empty_reg = false /\
  (let key := makeFullName "Db" ("x" +:+ "#" +:+ "y") in
   let s2 := snd (registerNamedCreator "Db" ("x" +:+ "#" +:+ "y") null_creator 3
                    (snd (registerNamedCreator ("Db" +:+ "#" +:+ "x") "y" ok_creator 5
                            empty_reg))) in
   makeFullName ("Db" +:+ "#" +:+ "x") "y" = key /\
   creators_ s2 !! key = Some (CPlain null_creator) /\
   last (trace s2) = Some (EvWarn key)).
Proof.
  split; [reflexivity|].
  apply (named_keys_collide "Db" "x" "y" ok_creator null_creator 5 3 empty_reg).
  reflexivity.
Defined.

(** ** The free function [registerNamedCreator<T>] *)

(** The free [registerNamedCreator<T>] wraps the creator with a no-op
    initializer.  For a key with no cached instance, [forceInitNamed]
    afterwards calls the creator once; on a non-null handle it runs the
    no-op initializer on it and caches and returns it; on a null handle
    it skips the initializer, caches nothing and returns null, without a
    diagnostic. *)
Theorem free_named_creator_lookup (class_name instance_name : string)
    (f : creator_fn) (p : Z) (s : reg) :
  mutex_ s = false -> instances_ s !! makeFullName class_name instance_name = None ->
  let key := makeFullName class_name instance_name in
  let s1 := snd (registerNamedCreator_T class_name instance_name f p s) in
  let r := forceInitNamed instance_name class_name s1 in
  (f (tick s1) = Returns true ->
     fst r = ROk (Some (tick s1)) /\ instances_ (snd r) !! key = Some (tick s1) /\
     trace (snd r) = trace s1 ++ [EvCreator key (tick s1) true; EvInit key (tick s1) true]) /\
  (f (tick s1) = Returns false ->
     fst r = ROk None /\ instances_ (snd r) = instances_ s1 /\
     trace (snd r) = trace s1 ++ [EvCreator key (tick s1) true]).
Proof.
  intros Hm Hi key s1 r.
  assert (Hs1 : s1 = op_effect s (OpNamedCreatorWithInit class_name instance_name f
                                     (fun _ => Done) p)).
  { unfold s1, registerNamedCreator_T.
    change (registerNamedCreatorWithInit class_name instance_name f (fun _ => Done) p s)
      with (run_reg_op (OpNamedCreatorWithInit class_name instance_name f
                          (fun _ => Done) p) s).
    rewrite run_reg_op_effect by exact Hm. reflexivity. }
  assert (Hm1 : mutex_ s1 = false) by (rewrite Hs1, op_effect_mutex; exact Hm).
  assert (Hi1 : instances_ s1 !! key = None) by (rewrite Hs1, op_effect_instances; exact Hi).
  assert (Hc1 : creators_ s1 !! key = Some (CWithInit key f (fun _ => Done))).
  { rewrite Hs1. unfold op_effect. simpl. apply lookup_insert_eq. }
  clearbody s1. subst r.
  unfold forceInitNamed, lazyCreateNamedInstance. fold key.
  unfold lazyCreateInstance, mbind, M_mbind, M_bind, with_lock, lock, get_state, M_ret.
  rewrite Hm1; simpl. rewrite Hi1; simpl. rewrite Hc1; simpl.
  unfold call_creator, catch_std, run_creator, run_init, emit, modify, M_ret,
    client_step, push_event, mbind, M_mbind, M_bind; simpl.
  split; intros Hf; rewrite Hf; simpl.
  - refine (conj eq_refl (conj _ _)); [apply lookup_insert_eq|].
    rewrite <- app_assoc. reflexivity.
  - refine (conj eq_refl (conj eq_refl _)). reflexivity.
Qed.

Lemma free_named_creator_lookup_witness :
  (mutex_ empty_reg = false /\ instances_ empty_reg !! makeFullName "Db" "main" = None) /\
  (let key := makeFullName "Db" "main" in
   let s1 := snd (registerNamedCreator_T "Db" "main" ok_creator 5 empty_reg) in
   let r := forceInitNamed "main" "Db" s1 in
   (ok_creator (tick s1) = Returns true ->
      fst r = ROk (Some (tick s1)) /\ instances_ (snd r) !! key = Some (tick s1) /\
      trace (snd r) = trace s1 ++ [EvCreator key (tick s1) true; EvInit key (tick s1) true]) /\
   (ok_creator (tick s1) = Returns false ->
      fst r = ROk None /\ instances_ (snd r) = instances_ s1 /\
      trace (snd r) = trace s1 ++ [EvCreator key (tick s1) true])).
Proof.
  split; [split; reflexivity|].
  apply (free_named_creator_lookup "Db" "main" ok_creator 5 empty_reg); reflexivity.
Defined.

End AutoRegister.
